(** * embeddings/utils.py: download reconciliation, verified

    A shallow embedding of [src/embeddings/utils.py] and the properties its
    specification states about it.

    Conventions of the model.
    - A Python [str] is a [string]; its characters are the 8-bit [ascii] of
      the Standard Library.  Every pattern the source searches for is ASCII.
    - The operating system, the object store and the child processes are the
      environment of the module: they are a [World] value and an oracle for
      the external executables, threaded through a state-and-exception monad.
    - [print], [Logger.info], the remote listing and the process launches are
      recorded, in order, in the [trace] of the world.
    - Outside the model: a NUL character in a path or a command line, for
      which Python raises [ValueError], and a call from inside a running
      event loop, for which [asyncio.run] raises [RuntimeError]. *)

From stdpp Require Import gmap strings list fin_maps.
From Stdlib Require Import Ascii.

(** ** Python string primitives *)

Module PyStr.

(** [s.startswith(p)] *)
Fixpoint startswith (p s : string) : bool :=
  match p, s with
  | EmptyString, _ => true
  | String _ _, EmptyString => false
  | String a p', String b s' => if decide (a = b) then startswith p' s' else false
  end.

(** [s.endswith(suf)]: [s] is [suf], or the tail of [s] ends with [suf]. *)
Fixpoint endswith (suf s : string) : bool :=
  if decide (s = suf) then true
  else match s with
       | EmptyString => false
       | String _ s' => endswith suf s'
       end.

(** [sub in s] *)
Fixpoint contains (sub s : string) : bool :=
  startswith sub s ||
  match s with
  | EmptyString => false
  | String _ s' => contains sub s'
  end.

(** [s.rstrip(c)] for a one-character set [c]. *)
Fixpoint rstrip (c : ascii) (s : string) : string :=
  match s with
  | EmptyString => EmptyString
  | String a s' =>
      match rstrip c s' with
      | EmptyString => if decide (a = c) then EmptyString else String a EmptyString
      | r => String a r
      end
  end.

(** [s[n:]] *)
Fixpoint drop (n : nat) (s : string) : string :=
  match n, s with
  | O, _ => s
  | S _, EmptyString => EmptyString
  | S k, String _ s' => drop k s'
  end.

(** [s.replace(old, new)] for a non-empty [old] (the source only replaces
    non-empty patterns): occurrences are found left to right and do not
    overlap; [skip] counts the characters of a match still to be consumed. *)
Fixpoint replace_from (skip : nat) (old new s : string) : string :=
  match s with
  | EmptyString => EmptyString
  | String a s' =>
      match skip with
      | S k => replace_from k old new s'
      | O =>
          if startswith old s
          then new +:+ replace_from (String.length old - 1) old new s'
          else String a (replace_from 0 old new s')
      end
  end.

Definition replace (old new s : string) : string := replace_from 0 old new s.

(** [s.split(c)] for a one-character separator: never the empty list. *)
Fixpoint split (c : ascii) (s : string) : list string :=
  match s with
  | EmptyString => [EmptyString]
  | String a s' =>
      if decide (a = c) then EmptyString :: split c s'
      else match split c s' with
           | h :: r => String a h :: r
           | [] => [String a EmptyString]
           end
  end.

(** [sep.join(l)] *)
Fixpoint join (sep : string) (l : list string) : string :=
  match l with
  | [] => EmptyString
  | [x] => x
  | x :: r => x +:+ sep +:+ join sep r
  end.

(** Whether bytes are well-formed UTF-8, as the strict decoder of
    [bytes.decode()] requires: no stray or missing continuation byte, no
    overlong form, no surrogate, nothing above U+10FFFF.  [need] counts the
    continuation bytes still expected, the next of them within [lo, hi]. *)
Fixpoint utf8_from (need lo hi : nat) (s : string) : bool :=
  match s with
  | EmptyString => need =? 0
  | String a s' =>
      let b := nat_of_ascii a in
      match need with
      | S k => (lo <=? b) && (b <=? hi) && utf8_from k 128 191 s'
      | O =>
          if b <? 128 then utf8_from 0 0 0 s'
          else if (194 <=? b) && (b <=? 223) then utf8_from 1 128 191 s'
          else if b =? 224 then utf8_from 2 160 191 s'
          else if (225 <=? b) && (b <=? 236) then utf8_from 2 128 191 s'
          else if b =? 237 then utf8_from 2 128 159 s'
          else if (238 <=? b) && (b <=? 239) then utf8_from 2 128 191 s'
          else if b =? 240 then utf8_from 3 144 191 s'
          else if (241 <=? b) && (b <=? 243) then utf8_from 3 128 191 s'
          else if b =? 244 then utf8_from 3 128 143 s'
          else false
      end
  end.

Definition utf8 (s : string) : bool := utf8_from 0 0 0 s.

(** Truthiness of a string: [if s:]. *)
Definition truthy (s : string) : bool :=
  match s with EmptyString => false | String _ _ => true end.

End PyStr.

(** ** [get_env_var_or_default] (lines 9-26) *)

(** [os.environ] is a finite map from names to values.  The default may be of
    any type, so the result is either the string of the environment or the
    default. *)
Inductive env_result (A : Type) : Type :=
| FromEnv (value : string)
| Default (value : A).
Arguments FromEnv {A} value.
Arguments Default {A} value.

Definition get_env_var_or_default {A : Type}
    (environ : gmap string string) (var_name : string) (default_value : A)
  : env_result A :=
  (* env_value = os.environ.get(var_name, <empty string>) *)
  let env_value := default EmptyString (environ !! var_name) in
  if 0 <? String.length env_value then FromEnv env_value
  else Default default_value.

(** ** Command lines of the two fetch tools (lines 75-79, 57) *)

Definition newline : string := String (ascii_of_nat 10) EmptyString.

Definition curl_info : string :=
  "%{filename_effective} took %{time_total}s (%{speed_download} bytes/sec)" +:+ newline.

Definition fetch_args (remote_path dest_path : string) : list string :=
  if PyStr.endswith "json" remote_path
  then ["curl"; "-w"; curl_info; "-sLo"; dest_path; remote_path]
  else ["pget"; remote_path; dest_path].

(** The executable a command line starts. *)
Definition program (args : list string) : string := default EmptyString (head args).

(** ** Exceptions and outcomes *)

Inductive exn : Type :=
| ImportError                                   (* line 126 *)
| OSError                                       (* FileNotFoundError, NotADirectoryError,
                                                   FileExistsError, IsADirectoryError *)
| NotFound                                      (* the object store knows no such bucket *)
| UnicodeDecodeError                            (* bytes.decode(), lines 92 and 94 *)
| CalledProcessError (returncode : Z) (cmd : list string).

Inductive result (A : Type) : Type :=
| Ok (value : A)
| Raise (e : exn).
Arguments Ok {A} value.
Arguments Raise {A} e.

(** ** The environment *)

(** What a call leaves behind besides files: one event per [print], per
    [Logger.info], per listing request sent to the object store and per child
    process started.  Where the printed text holds a number rendered by
    Python (a count, a duration, the repr of a list) the event keeps the data
    and not the rendering. *)
Inductive log_message : Type :=
| Downloading (missing_files : list string) (remote_path path : string)  (* line 197 *)
| FinishedDownload.                                                      (* line 200 *)

Inductive event : Type :=
| Printed (text : string)
| PrintedFound (remote_path : string) (remote_filenames : list string)     (* line 138 *)
| PrintedFinished                                                          (* line 201 *)
| LogInfo (marker : string) (message : log_message)
| ListBlobs (bucket_name prefix : string)
| Spawn (args : list string).

(** Entries of the file system: regular files and directories. *)
Inductive kind : Type := File | Dir.

#[global] Instance kind_eq_dec : EqDecision kind.
Proof. solve_decision. Defined.

(** What a finished child process reports. *)
Record completed : Type := Completed {
  returncode : Z;
  stdout : string;
  stderr : string;
}.

(** - [files]: the file system, keyed by absolute path, a list of segments
      from the root (the root is the empty list);
    - [cwd]: the working directory of the process;
    - [gcs]: [None] when [google.cloud.storage] cannot be imported, else the
      object names of each bucket in listing order;
    - [trace]: the events so far, oldest first. *)
Record World : Type := MkWorld {
  files : gmap (list string) kind;
  cwd : list string;
  gcs : option (gmap string (list string));
  trace : list event;
}.

Definition with_files (fs : gmap (list string) kind) (w : World) : World :=
  MkWorld fs (cwd w) (gcs w) (trace w).

Definition with_event (e : event) (w : World) : World :=
  MkWorld (files w) (cwd w) (gcs w) (trace w ++ [e]).

(** The child processes started through [trace], oldest first. *)
Definition spawned (t : list event) : list (list string) :=
  omap (fun e => match e with Spawn args => Some args | _ => None end) t.

(** The listing requests sent through [trace]. *)
Definition listings (t : list event) : list (string * string) :=
  omap (fun e => match e with ListBlobs b p => Some (b, p) | _ => None end) t.

(** ** State and exceptions *)

Definition M (A : Type) : Type := World -> result A * World.

Definition ret {A : Type} (a : A) : M A := fun w => (Ok a, w).

Definition raise {A : Type} (e : exn) : M A := fun w => (Raise e, w).

Definition bind {A B : Type} (m : M A) (k : A -> M B) : M B :=
  fun w =>
    match m w with
    | (Ok a, w') => k a w'
    | (Raise e, w') => (Raise e, w')
    end.

Notation "'let*' x := m 'in' k" := (bind m (fun x => k))
  (at level 10, x name, m at level 100, k at level 200).
Notation "m ;;; k" := (bind m (fun _ => k))
  (at level 100, k at level 200, right associativity).

Definition emit (e : event) : M unit := fun w => (Ok tt, with_event e w).

(** [if c: body] *)
Definition when (c : bool) (body : M unit) : M unit := if c then body else ret tt.

(** [for x in l: body(x)] *)
Fixpoint for_each {A : Type} (body : A -> M unit) (l : list A) : M unit :=
  match l with
  | [] => ret tt
  | x :: r => body x ;;; for_each body r
  end.

(** ** The [os] module on a POSIX file system without links *)

Module os.

(** A segment that does not move: the empty one of a doubled or trailing
    separator, and the dot. *)
Definition stays (c : string) : bool := bool_decide (c = EmptyString ∨ c = ".").

(** Where a path is resolved from. *)
Definition origin (w : World) (p : string) : list string :=
  if PyStr.startswith "/" p then [] else cwd w.

(** Follows the segments [comps] from the directory [cur].  Each segment is
    looked up in a directory: going through a missing entry or a regular
    file fails. *)
Fixpoint walk (fs : gmap (list string) kind) (cur : list string) (comps : list string)
  : option (list string) :=
  match comps with
  | [] => Some cur
  | c :: rest =>
      match fs !! cur with
      | Some Dir =>
          if stays c then walk fs cur rest
          else if decide (c = "..") then walk fs (removelast cur) rest
          else walk fs (cur ++ [c]) rest
      | _ => None
      end
  end.

(** The entry a path names, if there is one.  The empty path names nothing. *)
Definition resolve (w : World) (p : string) : option (list string) :=
  if PyStr.truthy p then
    match walk (files w) (origin w p) (PyStr.split "/" p) with
    | Some q => match files w !! q with Some _ => Some q | None => None end
    | None => None
    end
  else None.

(** [os.path.exists(p)] *)
Definition path_exists (w : World) (p : string) : bool :=
  bool_decide (is_Some (resolve w p)).

(** [os.path.isdir(p)] *)
Definition path_isdir (w : World) (p : string) : bool :=
  match resolve w p with
  | Some q => bool_decide (files w !! q = Some Dir)
  | None => false
  end.

(** The name of [p] as an entry of the directory [q]. *)
Definition entry_of (q p : list string) : option string :=
  if decide (length p = S (length q) ∧ take (length q) p = q) then last p else None.

Definition entries (fs : gmap (list string) kind) (q : list string) : list string :=
  omap (entry_of q) (map_to_list fs).*1.

(** [os.listdir(p)]: the names of the entries of the directory, in an
    unspecified order. *)
Definition listdir (p : string) : M (list string) :=
  fun w =>
    match resolve w p with
    | Some q =>
        match files w !! q with
        | Some Dir => (Ok (entries (files w) q), w)
        | _ => (Raise OSError, w)
        end
    | None => (Raise OSError, w)
    end.

(** The names [os.listdir(p)] gives, and none where it raises. *)
Definition local_names (w : World) (p : string) : list string :=
  match listdir p w with
  | (Ok names, _) => names
  | (Raise _, _) => []
  end.

(** On a file system no segment of an entry holds a separator. *)
Definition well_named (fs : gmap (list string) kind) : Prop :=
  map_Forall (fun p _ => Forall (fun seg => PyStr.contains "/" seg = false) p) fs.

#[global] Instance well_named_dec (fs : gmap (list string) kind) : Decision (well_named fs).
Proof. unfold well_named. apply _. Defined.

(** Creates the directories missing along [comps]; what was created before
    a failure stays. *)
Fixpoint mkwalk (fs : gmap (list string) kind) (cur : list string) (comps : list string)
  : bool * gmap (list string) kind :=
  match comps with
  | [] => (bool_decide (fs !! cur = Some Dir), fs)
  | c :: rest =>
      match fs !! cur with
      | Some Dir =>
          if stays c then mkwalk fs cur rest
          else if decide (c = "..") then mkwalk fs (removelast cur) rest
          else match fs !! (cur ++ [c]) with
               | Some _ => mkwalk fs (cur ++ [c]) rest
               | None => mkwalk (<[cur ++ [c] := Dir]> fs) (cur ++ [c]) rest
               end
      | _ => (false, fs)
      end
  end.

(** [os.makedirs(p, exist_ok=True)] *)
Definition makedirs (p : string) : M unit :=
  fun w =>
    if PyStr.truthy p then
      match mkwalk (files w) (origin w p) (PyStr.split "/" p) with
      | (true, fs) => (Ok tt, with_files fs w)
      | (false, fs) => (Raise OSError, with_files fs w)
      end
    else (Raise OSError, w).

(** [os.remove(p)]: removes a regular file. *)
Definition remove (p : string) : M unit :=
  fun w =>
    match resolve w p with
    | Some q =>
        match files w !! q with
        | Some File => (Ok tt, with_files (delete q (files w)) w)
        | _ => (Raise OSError, w)
        end
    | None => (Raise OSError, w)
    end.

(** The part of [p] up to and with its last separator: [p[:p.rfind(sep)+1]]. *)
Fixpoint head_of (p : string) : string :=
  match p with
  | EmptyString => EmptyString
  | String a p' =>
      if bool_decide (a = "/"%char) || PyStr.contains "/" p'
      then String a (head_of p')
      else EmptyString
  end.

(** [os.path.dirname(p)]: the head without its trailing separators, unless
    it is made of separators only. *)
Definition path_dirname (p : string) : string :=
  let head := head_of p in
  match PyStr.rstrip "/" head with
  | EmptyString => head
  | stripped => stripped
  end.

(** [os.path.join(a, b)] *)
Definition path_join (a b : string) : string :=
  if PyStr.startswith "/" b then b
  else if negb (PyStr.truthy a) || PyStr.endswith "/" a then a +:+ b
  else a +:+ "/" +:+ b.

End os.

(** ** [check_files_exist] (lines 62-69) *)

Definition check_files_exist (remote_files : list string) (local_path : string)
  : M (list string) :=
  let* local_files := os.listdir local_path in
  let missing_files := filter (fun file => file ∉ local_files) remote_files in
  ret missing_files.

(** ** [list_remote_filenames] (lines 109-139) *)

(** [bucket.list_blobs(prefix=prefix)]: the objects of the bucket whose name
    begins with [prefix].  The request is sent when the result is iterated,
    at line 137. *)
Definition list_blobs (bucket_name prefix : string) : M (list string) :=
  fun w =>
    match gcs w with
    | Some buckets =>
        match buckets !! bucket_name with
        | Some names =>
            (Ok (filter (fun name => PyStr.startswith prefix name = true) names),
             with_event (ListBlobs bucket_name prefix) w)
        | None => (Raise NotFound, with_event (ListBlobs bucket_name prefix) w)
        end
    | None => (Raise ImportError, w)   (* not reached after the import of line 124 *)
    end.

(** [from google.cloud import storage], and the [ImportError] of line 126
    when that fails. *)
Definition import_storage : M unit :=
  fun w => match gcs w with Some _ => (Ok tt, w) | None => (Raise ImportError, w) end.

(** Lines 130-131: the bucket and the prefix a location names. *)
Definition bucket_and_prefix (remote_path : string) : string * string :=
  let parts :=
    PyStr.split "/"
      (PyStr.replace "gs://" EmptyString
         (PyStr.replace "https://storage.googleapis.com/" EmptyString remote_path)) in
  let bucket_name := default EmptyString (head parts) in
  let prefixes := tail parts in
  let prefix := PyStr.join "/" prefixes in
  (bucket_name, prefix).

Definition list_remote_filenames (remote_path : string) : M (list string) :=
  import_storage ;;;
  let '(bucket_name, prefix) := bucket_and_prefix remote_path in
  emit (Printed ("bucket name " +:+ bucket_name)) ;;;
  emit (Printed ("prefix " +:+ prefix)) ;;;
  let* blobs := list_blobs bucket_name prefix in
  let remote_filenames := map (PyStr.drop (String.length prefix + 1)) blobs in
  emit (PrintedFound remote_path remote_filenames) ;;;
  ret remote_filenames.

(** ** The code that starts child processes *)

Section External.

(** The external executables: what starting [args] in a world does.  [None]
    when the executable cannot be started; else the file system the process
    leaves and what it reports.  Nothing is assumed of it. *)
Variable run_tool : list string -> World -> option (gmap (list string) kind * completed).

(** Starts a child process.  The process does its work at once: the world
    after the start has the files it leaves, and the value is what it
    reports once it has ended. *)
Definition spawn (args : list string) : M completed :=
  fun w =>
    match run_tool args w with
    | Some (fs, r) => (Ok r, with_event (Spawn args) (with_files fs w))
    | None => (Raise OSError, w)
    end.

(** [subprocess.check_call(command)] *)
Definition check_call (command : list string) : M unit :=
  let* r := spawn command in
  if decide (returncode r = 0%Z) then ret tt
  else raise (CalledProcessError (returncode r) command).

(** [download_file] (lines 49-59) *)
Definition download_file (file local_filename : string) : M unit :=
  emit (Printed ("Downloading " +:+ file +:+ " to " +:+ local_filename)) ;;;
  (fun w => when (os.path_exists w local_filename) (os.remove local_filename) w) ;;;
  when (PyStr.contains "/" local_filename)
    (fun w =>
       when (negb (os.path_exists w (os.path_dirname local_filename)))
         (os.makedirs (os.path_dirname local_filename)) w) ;;;
  let command := ["pget"; file; local_filename] in
  check_call command.

(** [b.decode()]: the text of well-formed UTF-8 bytes, which in this
    model is the same string, and [UnicodeDecodeError] for any other. *)
Definition decode (b : string) : M string :=
  if PyStr.utf8 b then ret b else raise UnicodeDecodeError.

(** [download_file_with_pget], lines 74-85: the announcement and the start
    of the child process.  This is what a fetch task does before it first
    waits. *)
Definition start_fetch (remote_path dest_path : string) : M completed :=
  emit (Printed ("Downloading  " +:+ remote_path)) ;;;
  let args := fetch_args remote_path dest_path in
  spawn args.

(** [download_file_with_pget], lines 88-94: what the task does with the
    outputs once the process has ended. *)
Definition finish_fetch (process : completed) : M unit :=
  when (PyStr.truthy (stdout process))
    (let* text := decode (stdout process) in
     emit (Printed ("[stdout]" +:+ newline +:+ text))) ;;;
  when (PyStr.truthy (stderr process))
    (let* text := decode (stderr process) in
     emit (Printed ("[stderr]" +:+ newline +:+ text))).

(** [download_file_with_pget] (lines 72-94): one fetch task, run alone. *)
Definition download_file_with_pget (remote_path dest_path : string) : M unit :=
  let* process := start_fetch remote_path dest_path in
  finish_fetch process.

(** The first steps of the tasks of a [gather], in the order of the tasks.
    Every task takes its first step, whether or not an earlier one has
    raised: the loop runs them all before the [gather] hears of an
    exception.  The outcome of each first step is kept. *)
Fixpoint start_all (tasks : list (string * string)) (w : World)
  : list (result completed) * World :=
  match tasks with
  | [] => ([], w)
  | (remote_path, dest_path) :: rest =>
      let '(outcome, w1) := start_fetch remote_path dest_path w in
      let '(outcomes, w2) := start_all rest w1 in
      (outcome :: outcomes, w2)
  end.

(** The exception of the first task that raised, if one did. *)
Fixpoint first_exception {A : Type} (outcomes : list (result A)) : option exn :=
  match outcomes with
  | [] => None
  | Ok _ :: rest => first_exception rest
  | Raise e :: _ => Some e
  end.

(** The values of the tasks that did not raise. *)
Fixpoint values {A : Type} (outcomes : list (result A)) : list A :=
  match outcomes with
  | [] => []
  | Ok a :: rest => a :: values rest
  | Raise _ :: rest => values rest
  end.

(** [download_files_with_pget] (lines 97-103): [asyncio.gather] over one
    fetch task per file.  All the tasks take their first step, in the order
    of [files].  If one of these raised, the [gather] raises the exception
    of the first such task and the other tasks are cancelled where they
    wait, their processes already started.  Else the outputs are handled.
    Of the schedules the event loop allows the model takes one: a process
    does its work as soon as it is started, and the tasks are resumed in the
    order of [files]. *)
Definition download_files_with_pget (remote_path path : string) (files : list string)
  : M unit :=
  fun w =>
    let tasks :=
      map (fun file => (remote_path +:+ "/" +:+ file, path +:+ "/" +:+ file)) files in
    let '(outcomes, w1) := start_all tasks w in
    match first_exception outcomes with
    | Some e => (Raise e, w1)
    | None => for_each finish_fetch (values outcomes) w1
    end.

(** The command line of the fetch task of [file] (line 100). *)
Definition task_args (remote_path path file : string) : list string :=
  fetch_args (remote_path +:+ "/" +:+ file) (path +:+ "/" +:+ file).

(** [maybe_download_with_pget], lines 178-185: the names to fetch. *)
Definition missing_files_of (path : string) (remote_filenames : list string)
  : M (list string) :=
  fun w =>
    if negb (os.path_exists w path) then
      (os.makedirs path ;;; ret remote_filenames) w
    else
      (let* local_files := os.listdir path in
       ret (filter (fun file => file ∉ local_files) remote_filenames)) w.

(** [maybe_download_with_pget], lines 188-191: the parent directories. *)
Definition make_parent_dirs (path : string) (missing_files : list string) : M unit :=
  for_each
    (fun file =>
       when (PyStr.contains "/" file)
         (fun w =>
            let parent := os.path_dirname (os.path_join path file) in
            when (negb (os.path_exists w parent)) (os.makedirs parent) w))
    missing_files.

(** [if logger: logger.info(message)] *)
Definition log_info (logger : option string) (message : log_message) : M unit :=
  match logger with
  | Some marker => emit (LogInfo marker message)
  | None => ret tt
  end.

(** [maybe_download_with_pget], lines 172-173: the location without its
    trailing separators and in its HTTPS form. *)
Definition https_location (remote_path : string) : string :=
  let remote_path := PyStr.rstrip "/" remote_path in
  PyStr.replace "gs://" "https://storage.googleapis.com/" remote_path.

(** [maybe_download_with_pget], lines 175-176: the expected names. *)
Definition expected_files (remote_path : string) (remote_filenames : option (list string))
  : M (list string) :=
  match remote_filenames with
  | None => list_remote_filenames remote_path
  | Some given => ret given
  end.

(** [maybe_download_with_pget], lines 172-201: the body of [if remote_path:]. *)
Definition download_missing (path remote_path : string)
    (remote_filenames : option (list string)) (logger : option string) : M unit :=
  let remote_path := https_location remote_path in
  let* remote_filenames := expected_files remote_path remote_filenames in
  let* missing_files := missing_files_of path remote_filenames in
  make_parent_dirs path missing_files ;;;
  when (0 <? length missing_files)
    (emit (Printed "Downloading weights...") ;;;
     log_info logger (Downloading missing_files remote_path path) ;;;
     download_files_with_pget remote_path path missing_files ;;;
     log_info logger FinishedDownload ;;;
     emit PrintedFinished).

(** [maybe_download_with_pget] (lines 142-203).  [None] is Python's [None],
    for the remote path, for the names and for the logger; a logger is
    known by its marker. *)
Definition maybe_download_with_pget (path : string) (remote_path : option string)
    (remote_filenames : option (list string)) (logger : option string) : M string :=
  match remote_path with
  | Some location =>
      when (PyStr.truthy location)
        (download_missing path location remote_filenames logger)
  | None => ret tt
  end ;;;
  ret path.

End External.

(** ** Scenarios *)

(** Stand-ins for the external executables and a few small worlds, on which
    the properties below are run. *)

Module Scenario.

(** The destination argument of a fetch command line. *)
Definition destination (args : list string) : option string :=
  if decide (program args = "curl") then args !! 4 else args !! 2.

(** Writes a regular file at [p] when its directory exists. *)
Definition write_file (w : World) (p : string) : gmap (list string) kind :=
  let comps := PyStr.split "/" p in
  match os.walk (files w) (os.origin w p) (removelast comps), last comps with
  | Some q, Some name =>
      match files w !! q with
      | Some Dir => <[q ++ [name] := File]> (files w)
      | _ => files w
      end
  | _, _ => files w
  end.

(** A fetch tool that succeeds: it writes its destination and exits with 0. *)
Definition fetching : list string -> World -> option (gmap (list string) kind * completed) :=
  fun args w =>
    match destination args with
    | Some dest => Some (write_file w dest, Completed 0 EmptyString EmptyString)
    | None => Some (files w, Completed 2 EmptyString "usage")
    end.

(** A fetch tool that fails: it writes nothing and exits with 1. *)
Definition failing : list string -> World -> option (gmap (list string) kind * completed) :=
  fun _ w => Some (files w, Completed 1 EmptyString "connection refused").

(** [out/] holds [config.json] and [weights/model.bin]. *)
Definition populated : gmap (list string) kind :=
  list_to_map
    [([], Dir); (["out"], Dir); (["out"; "config.json"], File);
     (["out"; "weights"], Dir); (["out"; "weights"; "model.bin"], File)].

(** [out/] is empty. *)
Definition fresh : gmap (list string) kind :=
  list_to_map [([], Dir); (["out"], Dir)].


Definition buckets : gmap string (list string) :=
  list_to_map
    [("my-bucket", ["config.json"; "weights.bin"]);
     ("bucket", ["models/x/config.json"; "models/x/weights.bin"; "models/xy/notes.txt"])].

Definition world (fs : gmap (list string) kind) : World := MkWorld fs [] (Some buckets) [].

(** A world where [google.cloud.storage] is not installed. *)
Definition offline (fs : gmap (list string) kind) : World := MkWorld fs [] None [].

End Scenario.

(** ** Observations of a run *)


(** What a run of [m], ended normally or by an exception, does to the world:
    it takes every world to one related to it by [R]. *)
Definition keeps {A : Type} (R : relation World) (m : M A) : Prop :=
  ∀ w, R w (snd (m w)).

(** The exceptions [m] can end with all satisfy [Q]. *)
Definition throws {A : Type} (Q : exn → Prop) (m : M A) : Prop :=
  ∀ w e, fst (m w) = Raise e → Q e.

(** Nothing that [f] observes was added to the trace. *)
Definition unobserved {B : Type} (f : event → option B) : relation World :=
  fun w w' => omap f (trace w') = omap f (trace w).

(** Every entry is still there, with its kind, and the working directory is
    the same. *)
Definition files_kept : relation World :=
  fun w w' => files w ⊆ files w' ∧ cwd w' = cwd w.

(** No regular file appeared at [q]. *)
Definition no_new_file (q : list string) : relation World :=
  fun w w' => files w' !! q = Some File → files w !! q = Some File.

Module Fixture.

(** A fetch tool that never overwrites: it writes its destination when the
    directory exists and the name is free, and exits with 1 otherwise. *)
Definition careful : list string -> World -> option (gmap (list string) kind * completed) :=
  fun args w =>
    let refused := Some (files w, Completed 1 EmptyString "refused") in
    match Scenario.destination args with
    | Some dest =>
        let comps := PyStr.split "/" dest in
        match os.walk (files w) (os.origin w dest) (removelast comps), last comps with
        | Some q, Some name =>
            match files w !! q, files w !! (q ++ [name]) with
            | Some Dir, None =>
                Some (<[q ++ [name] := File]> (files w), Completed 0 EmptyString EmptyString)
            | _, _ => refused
            end
        | _, _ => refused
        end
    | None => refused
    end.

(** [out] itself is a regular file. *)
Definition flat : gmap (list string) kind :=
  list_to_map [([], Dir); (["out"], File)].


(** A tool whose standard output is the single byte 255, which is not
    UTF-8. *)
Definition garbling : list string -> World -> option (gmap (list string) kind * completed) :=
  fun _ w => Some (files w, Completed 0 (String (ascii_of_nat 255) EmptyString) EmptyString).

End Fixture.

(** * Properties *)

#[local] Arguments String.append !_ _ / : simpl nomatch.

(** ** The string primitives meet their Python meaning *)

Lemma startswith_spec (p s : string) :
  PyStr.startswith p s = true ↔ ∃ t, s = p +:+ t.
Proof.
  revert s. induction p as [|a p IH]; intros s; simpl.
  - split; [intros _; by exists s | done].
  - destruct s as [|b s].
    + split; [done | intros [t Ht]; discriminate].
    + destruct (decide (a = b)) as [->|Hne].
      * rewrite IH. split; intros [t Ht]; exists t.
        -- by rewrite Ht.
        -- by injection Ht.
      * split; [done | intros [t Ht]; by injection Ht].
Qed.

Lemma endswith_spec (suf s : string) :
  PyStr.endswith suf s = true ↔ ∃ pre, s = pre +:+ suf.
Proof.
  induction s as [|a s IH]; simpl.
  - destruct (decide (EmptyString = suf)) as [<-|Hne].
    + split; [intros _; by exists EmptyString | done].
    + split; [done |]. intros [pre Hpre]. destruct pre; simpl in Hpre; congruence.
  - destruct (decide (String a s = suf)) as [<-|Hne].
    + split; [intros _; by exists EmptyString | done].
    + rewrite IH. split.
      * intros [pre ->]. by exists (String a pre).
      * intros [pre Hpre]. destruct pre as [|b pre]; simpl in Hpre.
        -- congruence.
        -- exists pre. congruence.
Qed.

Lemma contains_slash_spec (s : string) :
  PyStr.contains "/" s = true ↔ ∃ pre post, s = pre +:+ "/" +:+ post.
Proof.
  induction s as [|a s IH].
  - simpl. split; [done |]. intros (pre & post & H). destruct pre; discriminate.
  - cbn [PyStr.contains]. rewrite orb_true_iff, IH, startswith_spec. split.
    + intros [[t Ht] | (pre & post & ->)].
      * by exists EmptyString, t.
      * by exists (String a pre), post.
    + intros (pre & post & H). destruct pre as [|b pre]; simpl in H.
      * left. by exists post.
      * right. exists pre, post. simpl. congruence.
Qed.

(** The segments of [split] hold no separator, and joining them again gives
    the string back. *)
Lemma split_no_separator (c : ascii) (s seg : string) :
  seg ∈ PyStr.split c s → ∀ pre post, seg ≠ pre +:+ String c post.
Proof.
  revert seg. induction s as [|a s IH]; intros seg; simpl.
  - intros ->%list_elem_of_singleton pre post H. destruct pre; discriminate.
  - destruct (decide (a = c)) as [->|Hne].
    + intros [->|Hin]%elem_of_cons; [| by apply IH].
      intros pre post H. destruct pre; discriminate.
    + destruct (PyStr.split c s) as [|h r] eqn:Hs.
      * intros ->%list_elem_of_singleton pre post H.
        destruct pre as [|b [|]]; simpl in H; congruence.
      * intros [->|Hin]%elem_of_cons.
        -- intros pre post H. destruct pre as [|b pre]; simpl in H; [congruence |].
           injection H as _ H. revert H. apply IH. by left.
        -- apply IH. by right.
Qed.

Lemma split_nonempty (c : ascii) (s : string) : PyStr.split c s ≠ [].
Proof.
  destruct s as [|a s]; simpl; [done |].
  destruct (decide (a = c)); [done |]. by destruct (PyStr.split c s).
Qed.

Lemma join_split (c : ascii) (s : string) :
  PyStr.join (String c EmptyString) (PyStr.split c s) = s.
Proof.
  induction s as [|a s IH]; [done |].
  pose proof (split_nonempty c s) as Hne. simpl.
  destruct (decide (a = c)) as [->|Hac];
    destruct (PyStr.split c s) as [|h r]; try done.
  - cbn [PyStr.join]. simpl. by rewrite <- IH.
  - destruct r; simpl in *; by rewrite <- IH.
Qed.

(** The primitives on the inputs of the docstrings and a few edge cases,
    with the values Python gives. *)
Example string_primitives :
  PyStr.rstrip "/" "gs://my-bucket/username/roberta-base//" = "gs://my-bucket/username/roberta-base" ∧
  PyStr.replace "gs://" "https://storage.googleapis.com/" "gs://my-bucket/a"
    = "https://storage.googleapis.com/my-bucket/a" ∧
  PyStr.replace "aa" "b" "aaa" = "ba" ∧
  PyStr.split "/" "my-bucket/username//roberta-base/"
    = ["my-bucket"; "username"; EmptyString; "roberta-base"; EmptyString] ∧
  PyStr.drop 3 "ab" = EmptyString ∧
  bucket_and_prefix "gs://my-bucket/username/roberta-base"
    = ("my-bucket", "username/roberta-base") ∧
  bucket_and_prefix "https://storage.googleapis.com/my-bucket/username/roberta-base"
    = ("my-bucket", "username/roberta-base").
Proof. repeat split. Qed.

Example path_primitives :
  os.path_dirname "out/weights/model.bin" = "out/weights" ∧
  os.path_dirname "model.bin" = EmptyString ∧
  os.path_dirname "/model.bin" = "/" ∧
  os.path_dirname "out//model.bin" = "out" ∧
  os.path_join "out" "weights/model.bin" = "out/weights/model.bin" ∧
  os.path_join "out/" "model.bin" = "out/model.bin" ∧
  os.path_join "out" "/model.bin" = "/model.bin" ∧
  os.path_join EmptyString "model.bin" = "model.bin".
Proof. repeat split. Qed.

(** ** The environment accessor *)

(** C9. [get_env_var_or_default] returns the default when the variable is
    unset and when it is set to the empty string; in every other case it
    returns the value of the environment unchanged. *)
Theorem get_env_var_or_default_cases {A : Type}
    (environ : gmap string string) (var_name : string) (default_value : A) :
  get_env_var_or_default environ var_name default_value =
  match environ !! var_name with
  | None => Default default_value
  | Some EmptyString => Default default_value
  | Some (String c s) => FromEnv (String c s)
  end.
Proof.
  unfold get_env_var_or_default.
  destruct (environ !! var_name) as [[|c s]|]; reflexivity.
Qed.

(** ** Dispatch of a fetch task *)

(** C2, as the code has it.  A fetch task starts [curl] exactly when its
    source ends with the four characters [json], with or without a dot
    before them, and starts [pget] for every other source. *)
Theorem fetch_dispatch_on_json_suffix (remote_path dest_path : string) :
  (program (fetch_args remote_path dest_path) = "curl"
     ↔ ∃ pre, remote_path = pre +:+ "json") ∧
  (program (fetch_args remote_path dest_path) = "pget"
     ↔ ¬ ∃ pre, remote_path = pre +:+ "json").
Proof.
  rewrite <- endswith_spec. unfold fetch_args, program.
  destruct (PyStr.endswith "json" remote_path); simpl; split; split;
    try done; intros H; by destruct H.
Qed.

(** C2 as stated fails: a source that ends with [json] but not with
    [.json] is fetched with [curl]. *)
Lemma geojson_is_fetched_with_curl :
  program (fetch_args "https://storage.googleapis.com/bucket/maps/cities.geojson"
                      "out/cities.geojson") = "curl" ∧
  ¬ ∃ pre, "https://storage.googleapis.com/bucket/maps/cities.geojson" = pre +:+ ".json".
Proof.
  split; [reflexivity |]. rewrite <- endswith_spec. by vm_compute.
Qed.

(** ** Running the monad *)

Lemma bind_ok {A B : Type} (m : M A) (k : A -> M B) (w w' : World) (a : A) :
  m w = (Ok a, w') → bind m k w = k a w'.
Proof. unfold bind. by intros ->. Qed.

Lemma bind_raise {A B : Type} (m : M A) (k : A -> M B) (w w' : World) (e : exn) :
  m w = (Raise e, w') → bind m k w = (Raise e, w').
Proof. unfold bind. by intros ->. Qed.

(** Goals on the processes of a trace that grew by known events. *)
Ltac spawned_simpl :=
  unfold spawned, with_event, with_files; simpl;
  rewrite ?omap_app; simpl; rewrite ?app_nil_r; try done.

Section ExternalProperties.

Variable run_tool : list string -> World -> option (gmap (list string) kind * completed).

(** ** No remote location *)

(** C10. An empty string as remote location is treated as an absent one:
    the call returns [path] and leaves the world as it was, so nothing is
    listed, created or fetched. *)
Theorem empty_remote_is_absent (path : string) (remote_filenames : option (list string))
    (logger : option string) (w : World) :
  maybe_download_with_pget run_tool path (Some EmptyString) remote_filenames logger w
    = (Ok path, w) ∧
  maybe_download_with_pget run_tool path (Some EmptyString) remote_filenames logger w
    = maybe_download_with_pget run_tool path None remote_filenames logger w.
Proof. split; reflexivity. Qed.

(** C4. Without a remote location the call returns [path] and the world,
    its files and its trace, is unchanged.  With or without one, a call
    that returns a value returns [path]: the outcome is [path] or an
    exception, never another value. *)
Theorem returns_path (path : string) (remote_filenames : option (list string))
    (logger : option string) (w : World) :
  maybe_download_with_pget run_tool path None remote_filenames logger w = (Ok path, w) ∧
  ∀ remote_path,
    fst (maybe_download_with_pget run_tool path remote_path remote_filenames logger w)
      = Ok path ∨
    ∃ e, fst (maybe_download_with_pget run_tool path remote_path remote_filenames logger w)
      = Raise e.
Proof.
  split; [reflexivity |]. intros remote_path.
  unfold maybe_download_with_pget, bind.
  destruct remote_path as [location|]; [| by left].
  destruct (when _ _ w) as [[[]|e] w']; simpl; eauto.
Qed.

(** ** The listing capability *)

(** C6. When the names have to be listed and [google.cloud.storage] cannot
    be imported, the listing raises [ImportError] before anything else is
    done, and the reconciler lets it through: the world is unchanged. *)
Theorem listing_needs_storage (path remote_path : string) (logger : option string)
    (w : World) :
  gcs w = None →
  PyStr.truthy remote_path = true →
  list_remote_filenames remote_path w = (Raise ImportError, w) ∧
  maybe_download_with_pget run_tool path (Some remote_path) None logger w
    = (Raise ImportError, w).
Proof.
  intros Hgcs Htruthy.
  assert (∀ r, list_remote_filenames r w = (Raise ImportError, w)) as Hlist.
  { intros r. unfold list_remote_filenames, bind, import_storage. by rewrite Hgcs. }
  split; [apply Hlist |].
  unfold maybe_download_with_pget, download_missing, expected_files, bind.
  rewrite Htruthy. simpl. unfold bind. by rewrite Hlist.
Qed.

(** ** Exit codes *)

(** How a fetch task ends once its process has ended: by the outputs alone. *)
Lemma finish_fetch_outcome (process : completed) (w : World) :
  fst (finish_fetch process w) =
  if PyStr.utf8 (stdout process) && PyStr.utf8 (stderr process) then Ok tt
  else Raise UnicodeDecodeError.
Proof.
  unfold finish_fetch, bind, when, decode, ret, raise, emit.
  destruct (stdout process) as [|a out], (stderr process) as [|b err]; simpl PyStr.truthy;
    cbv iota; try reflexivity.
  - by destruct (PyStr.utf8 (String b err)).
  - destruct (PyStr.utf8 (String a out)); simpl; reflexivity.
  - destruct (PyStr.utf8 (String a out)); simpl; [| reflexivity].
    by destruct (PyStr.utf8 (String b err)).
Qed.

(** The first step of a fetch task. *)
Lemma start_fetch_run (remote_path dest_path : string) (w : World) :
  start_fetch run_tool remote_path dest_path w =
  let w1 := with_event (Printed ("Downloading  " +:+ remote_path)) w in
  match run_tool (fetch_args remote_path dest_path) w1 with
  | Some (fs, r) =>
      (Ok r, with_event (Spawn (fetch_args remote_path dest_path)) (with_files fs w1))
  | None => (Raise OSError, w1)
  end.
Proof. reflexivity. Qed.


End ExternalProperties.

(** C6 on a machine without the storage library. *)
Lemma listing_needs_storage_offline :
  list_remote_filenames "gs://bucket/models/x" (Scenario.offline Scenario.fresh)
    = (Raise ImportError, Scenario.offline Scenario.fresh) ∧
  maybe_download_with_pget Scenario.fetching "out" (Some "gs://bucket/models/x") None None
    (Scenario.offline Scenario.fresh)
    = (Raise ImportError, Scenario.offline Scenario.fresh).
Proof.
  apply (listing_needs_storage Scenario.fetching "out" "gs://bucket/models/x" None
           (Scenario.offline Scenario.fresh)); reflexivity.
Defined.


(** ** Remote listing *)

(** The names returned are those of the objects whose name begins with the
    prefix, each without its first [len(prefix) + 1] characters. *)
Lemma list_remote_filenames_value (remote_path : string) (w : World)
    (buckets : gmap string (list string)) (names : list string) :
  gcs w = Some buckets →
  buckets !! (bucket_and_prefix remote_path).1 = Some names →
  fst (list_remote_filenames remote_path w) =
  Ok (map (PyStr.drop (String.length (bucket_and_prefix remote_path).2 + 1))
        (filter (fun name => PyStr.startswith (bucket_and_prefix remote_path).2 name = true)
           names)).
Proof.
  intros Hgcs Hnames. unfold list_remote_filenames, bind, import_storage.
  rewrite Hgcs. destruct (bucket_and_prefix remote_path) as [bucket_name prefix].
  simpl in *. unfold list_blobs. simpl. by rewrite Hgcs, Hnames.
Qed.

(** Under a prefix followed by a separator, that is the rest of the name. *)
Lemma drop_prefix_and_separator (prefix rest : string) :
  PyStr.drop (String.length prefix + 1) (prefix +:+ "/" +:+ rest) = rest.
Proof. induction prefix as [|a prefix IH]; [done | apply IH]. Qed.

(** C8 fails for a location that names a bucket and no prefix: the first
    character of every object name is lost. *)
Theorem bucket_only_listing_loses_first_character :
  bucket_and_prefix "gs://my-bucket" = ("my-bucket", EmptyString) ∧
  Scenario.buckets !! "my-bucket" = Some ["config.json"; "weights.bin"] ∧
  fst (list_remote_filenames "gs://my-bucket" (Scenario.world Scenario.fresh))
    = Ok ["onfig.json"; "eights.bin"] ∧
  fst (list_remote_filenames "https://storage.googleapis.com/my-bucket"
         (Scenario.world Scenario.fresh))
    = Ok ["onfig.json"; "eights.bin"].
Proof. repeat split; by vm_compute. Qed.

(** ** The file system *)

Lemma entry_of_spec (q p : list string) (name : string) :
  os.entry_of q p = Some name ↔ p = q ++ [name].
Proof.
  unfold os.entry_of. split.
  - case_decide as H; [| done]. destruct H as [Hlen Htake]. intros Hlast.
    rewrite <- (take_drop (length q) p), Htake. f_equal.
    assert (length (drop (length q) p) = 1) as Hd by (rewrite length_drop; lia).
    destruct (drop (length q) p) as [|x [|y r]] eqn:Hdrop; simplify_eq/=.
    rewrite <- (take_drop (length q) p), Hdrop, last_snoc in Hlast. congruence.
  - intros ->. rewrite decide_True.
    + apply last_snoc.
    + rewrite length_app. simpl. split; [lia |]. by rewrite take_app_length.
Qed.

(** The names of a listing are the entries directly in the directory. *)
Lemma elem_of_entries (fs : gmap (list string) kind) (q : list string) (name : string) :
  name ∈ os.entries fs q ↔ is_Some (fs !! (q ++ [name])).
Proof.
  unfold os.entries. rewrite list_elem_of_omap. split.
  - intros (p & Hp & Hentry). apply entry_of_spec in Hentry as ->.
    apply list_elem_of_fmap in Hp as ([p k] & -> & Hin).
    apply elem_of_map_to_list in Hin. by exists k.
  - intros [k Hk]. exists (q ++ [name]). split; [| by apply entry_of_spec].
    apply list_elem_of_fmap. exists (q ++ [name], k). split; [done |].
    by apply elem_of_map_to_list.
Qed.

(** A name with a separator is the name of no entry. *)
Lemma nested_name_is_no_entry (fs : gmap (list string) kind) (q : list string)
    (name : string) :
  os.well_named fs → PyStr.contains "/" name = true → fs !! (q ++ [name]) = None.
Proof.
  intros Hwell Hsep. destruct (fs !! (q ++ [name])) as [k|] eqn:Hk; [| done].
  apply Hwell in Hk. rewrite Forall_app, Forall_singleton in Hk.
  destruct Hk as [_ Hk]. congruence.
Qed.

(** Resolution reads the files and the working directory only. *)
Lemma resolve_ext (w w' : World) (p : string) :
  files w' = files w → cwd w' = cwd w → os.resolve w' p = os.resolve w p.
Proof. intros Hf Hc. unfold os.resolve, os.origin. by rewrite Hf, Hc. Qed.

Lemma path_exists_ext (w w' : World) (p : string) :
  files w' = files w → cwd w' = cwd w → os.path_exists w' p = os.path_exists w p.
Proof. intros Hf Hc. unfold os.path_exists. by rewrite (resolve_ext w w'). Qed.

Lemma path_isdir_ext (w w' : World) (p : string) :
  files w' = files w → cwd w' = cwd w → os.path_isdir w' p = os.path_isdir w p.
Proof. intros Hf Hc. unfold os.path_isdir. by rewrite (resolve_ext w w'), Hf. Qed.

(** What [os.listdir] gives on a directory. *)
Lemma listdir_of_directory (w : World) (p : string) :
  os.path_isdir w p = true →
  ∃ q, os.resolve w p = Some q ∧ files w !! q = Some Dir ∧
       os.path_exists w p = true ∧
       os.listdir p w = (Ok (os.entries (files w) q), w).
Proof.
  unfold os.path_isdir, os.path_exists, os.listdir.
  destruct (os.resolve w p) as [q|]; [| done].
  intros Hdir%bool_decide_eq_true. exists q. rewrite Hdir.
  split_and!; first [done | apply bool_decide_eq_true; by eexists].
Qed.

(** [os.listdir] never changes the world. *)
Lemma listdir_world (w : World) (p : string) : snd (os.listdir p w) = w.
Proof. unfold os.listdir. by repeat case_match. Qed.

(** *** Creating directories *)

Lemma mkwalk_grows (comps : list string) (fs : gmap (list string) kind)
    (cur : list string) :
  fs ⊆ snd (os.mkwalk fs cur comps).
Proof.
  revert fs cur. induction comps as [|c rest IH]; intros fs cur; simpl; [done |].
  destruct (fs !! cur) as [[]|]; simpl; try done.
  destruct (os.stays c); [apply IH |].
  destruct (decide (c = "..")); [apply IH |].
  destruct (fs !! (cur ++ [c])) eqn:Hc; [apply IH |].
  etrans; [| apply IH]. by apply insert_subseteq.
Qed.




(** [os.makedirs] leaves the trace, the working directory and the object
    store alone, keeps every entry, and on success its path and every prefix
    of the path before a separator name directories. *)
Lemma makedirs_frame (p : string) (w : World) :
  trace (snd (os.makedirs p w)) = trace w ∧
  cwd (snd (os.makedirs p w)) = cwd w ∧
  gcs (snd (os.makedirs p w)) = gcs w ∧
  files w ⊆ files (snd (os.makedirs p w)).
Proof.
  unfold os.makedirs. destruct (PyStr.truthy p); [| done].
  pose proof (mkwalk_grows (PyStr.split "/" p) (files w) (os.origin w p)).
  by destruct (os.mkwalk _ _ _) as [[] fs].
Qed.


(** ** What each step of the reconciler touches *)

(** Finding the expected names touches neither the files nor the processes. *)
Lemma expected_files_frame (remote_path : string) (given : option (list string))
    (w : World) :
  files (snd (expected_files remote_path given w)) = files w ∧
  cwd (snd (expected_files remote_path given w)) = cwd w ∧
  gcs (snd (expected_files remote_path given w)) = gcs w ∧
  spawned (trace (snd (expected_files remote_path given w))) = spawned (trace w).
Proof.
  destruct given as [names|]; [done |]. simpl.
  unfold list_remote_filenames, bind, import_storage.
  destruct (gcs w) as [buckets|] eqn:Hgcs; [| done].
  destruct (bucket_and_prefix remote_path) as [bucket_name prefix].
  unfold emit, list_blobs, ret. simpl. rewrite Hgcs.
  destruct (buckets !! bucket_name); split_and!; try done; by spawned_simpl.
Qed.

Lemma make_parent_dirs_frame (path : string) (missing_files : list string) (w : World) :
  trace (snd (make_parent_dirs path missing_files w)) = trace w.
Proof.
  unfold make_parent_dirs. revert w.
  induction missing_files as [|file rest IH]; intros w; [done |].
  cbn [for_each]. unfold bind at 1.
  set (parent := os.path_dirname (os.path_join path file)).
  assert (trace (snd (when (PyStr.contains "/" file)
                        (fun w0 => when (negb (os.path_exists w0 parent))
                                     (os.makedirs parent) w0) w)) = trace w) as Hstep.
  { unfold when, ret. destruct (PyStr.contains "/" file); [| done].
    destruct (negb (os.path_exists w parent)); [| done].
    apply makedirs_frame. }
  destruct (when (PyStr.contains "/" file) _ w) as [[[]|e] w1]; simpl in Hstep.
  - by rewrite IH.
  - done.
Qed.

Section ReconcilerProperties.

Variable run_tool : list string -> World -> option (gmap (list string) kind * completed).

Lemma missing_files_of_frame (path : string) (names : list string) (w : World) :
  trace (snd (missing_files_of path names w)) = trace w.
Proof.
  unfold missing_files_of. destruct (os.path_exists w path); simpl.
  - unfold bind, ret. pose proof (listdir_world w path) as Hl.
    destruct (os.listdir path w) as [[]]; simpl in *; by subst.
  - unfold bind, ret. destruct (makedirs_frame path w) as [Ht _].
    by destruct (os.makedirs path w) as [[[]|]].
Qed.

(** The first step of a fetch task starts one process, or none when the
    process cannot be started. *)
Lemma start_fetch_spawned (remote_path dest_path : string) (w : World) :
  match start_fetch run_tool remote_path dest_path w with
  | (Ok _, w') => spawned (trace w') = spawned (trace w) ++ [fetch_args remote_path dest_path]
  | (Raise _, w') => spawned (trace w') = spawned (trace w)
  end.
Proof.
  rewrite start_fetch_run. cbv zeta.
  destruct (run_tool _ _) as [[fs r]|]; by spawned_simpl.
Qed.

(** Handling the outputs starts nothing. *)
Lemma finish_fetch_spawned (process : completed) (w : World) :
  spawned (trace (snd (finish_fetch process w))) = spawned (trace w).
Proof.
  unfold finish_fetch, bind, when, decode, ret, raise, emit.
  destruct (PyStr.truthy (stdout process)), (PyStr.truthy (stderr process));
    destruct (PyStr.utf8 (stdout process)), (PyStr.utf8 (stderr process)); by spawned_simpl.
Qed.

Lemma finish_all_spawned (processes : list completed) (w : World) :
  spawned (trace (snd (for_each finish_fetch processes w))) = spawned (trace w).
Proof.
  revert w. induction processes as [|process rest IH]; intros w; [done |].
  cbn [for_each]. unfold bind.
  pose proof (finish_fetch_spawned process w) as Hone.
  destruct (finish_fetch process w) as [[[]|e] w1]; simpl in *; [| done].
  by rewrite IH.
Qed.

(** The first steps start the tasks that can be started, in the order of
    the names: all of them when none raises. *)
Lemma start_all_spawned (remote_path path : string) (names : list string) (w : World) :
  let tasks :=
    map (fun file => (remote_path +:+ "/" +:+ file, path +:+ "/" +:+ file)) names in
  ∃ started,
    started `sublist_of` names ∧
    spawned (trace (snd (start_all run_tool tasks w)))
      = spawned (trace w) ++ map (task_args remote_path path) started ∧
    (first_exception (fst (start_all run_tool tasks w)) = None → started = names).
Proof.
  cbv zeta. revert w. induction names as [|file rest IH]; intros w.
  - exists []. simpl. by rewrite app_nil_r.
  - cbn [map start_all].
    pose proof (start_fetch_spawned (remote_path +:+ "/" +:+ file)
                  (path +:+ "/" +:+ file) w) as Hone.
    destruct (start_fetch run_tool _ _ w) as [[process|e] w1];
      destruct (IH w1) as (started & Hsub & Hspawned & Hall);
      destruct (start_all run_tool _ w1) as [outcomes w2]; simpl in *.
    + exists (file :: started). split; [by apply sublist_skip |]. split.
      * rewrite Hspawned, Hone, <- app_assoc. done.
      * intros Hnone. by rewrite Hall.
    + exists started. split; [by apply sublist_cons |]. split; [congruence | done].
Qed.

(** The processes of the fan-out: one per name, in order, when it ends
    normally; those of some of the names, in order, when it raises. *)
Lemma fetch_tasks_spawned (remote_path path : string) (names : list string) (w : World) :
  match download_files_with_pget run_tool remote_path path names w with
  | (Ok _, w') =>
      spawned (trace w') = spawned (trace w) ++ map (task_args remote_path path) names
  | (Raise _, w') =>
      ∃ started,
        started `sublist_of` names ∧
        spawned (trace w') = spawned (trace w) ++ map (task_args remote_path path) started
  end.
Proof.
  unfold download_files_with_pget.
  destruct (start_all_spawned remote_path path names w) as (started & Hsub & Hspawned & Hall).
  cbv zeta in *. destruct (start_all run_tool _ w) as [outcomes w1]. simpl in *.
  destruct (first_exception outcomes) as [e|].
  - by exists started.
  - rewrite (Hall eq_refl) in Hspawned.
    pose proof (finish_all_spawned (values outcomes) w1) as Hfinish.
    destruct (for_each finish_fetch (values outcomes) w1) as [[[]|e] w']; simpl in *.
    + congruence.
    + exists names. split; [done | congruence].
Qed.

(** The processes a call starts are the fetch tasks of its missing names:
    all of them, in order, when the call returns; those of some of them, in
    order, when an exception ends it. *)
Lemma download_missing_spawns (path remote_path : string) (given : option (list string))
    (logger : option string) (w : World) :
  let location := https_location remote_path in
  let call := download_missing run_tool path remote_path given logger w in
  match expected_files location given w with
  | (Raise e, _) => fst call = Raise e ∧ spawned (trace (snd call)) = spawned (trace w)
  | (Ok names, w1) =>
      match missing_files_of path names w1 with
      | (Raise e, _) => fst call = Raise e ∧ spawned (trace (snd call)) = spawned (trace w)
      | (Ok missing_files, _) =>
          match call with
          | (Ok _, w') =>
              spawned (trace w')
              = spawned (trace w) ++ map (task_args location path) missing_files
          | (Raise _, w') =>
              ∃ started,
                started `sublist_of` missing_files ∧
                spawned (trace w')
                = spawned (trace w) ++ map (task_args location path) started
          end
      end
  end.
Proof.
  intros location call. subst call. unfold download_missing. fold location.
  destruct (expected_files_frame location given w) as (_ & _ & _ & Hw1).
  destruct (expected_files location given w) as [[names|e] w1] eqn:Hexp;
    [erewrite bind_ok by done | by erewrite bind_raise by done].
  simpl in Hw1.
  pose proof (missing_files_of_frame path names w1) as Hw2.
  destruct (missing_files_of path names w1) as [[missing_files|e] w2] eqn:Hmiss;
    [erewrite bind_ok by done | erewrite bind_raise by done; simpl in *; split; congruence].
  simpl in Hw2.
  pose proof (make_parent_dirs_frame path missing_files w2) as Hw3.
  destruct (make_parent_dirs path missing_files w2) as [[[]|e] w3] eqn:Hdirs;
    simpl in Hw3; [erewrite bind_ok by done | erewrite bind_raise by done].
  2:{ exists []. split; [apply sublist_nil_l |]. simpl. rewrite app_nil_r. congruence. }
  assert (spawned (trace w3) = spawned (trace w)) as Hstart by congruence.
  destruct missing_files as [|file rest].
  { simpl. by rewrite app_nil_r. }
  cbn [length Nat.ltb Nat.leb when].
  erewrite bind_ok by reflexivity.
  set (w4 := with_event (Printed "Downloading weights...") w3).
  assert (∃ w5, log_info logger (Downloading (file :: rest) location path) w4 = (Ok tt, w5)
                ∧ spawned (trace w5) = spawned (trace w)) as (w5 & Hlog & Hw5).
  { destruct logger; simpl; eexists; (split; [done |]);
      unfold w4; rewrite <- Hstart; by spawned_simpl. }
  erewrite bind_ok by exact Hlog.
  pose proof (fetch_tasks_spawned location path (file :: rest) w5) as Htasks.
  destruct (download_files_with_pget run_tool location path (file :: rest) w5)
    as [[[]|e] w6] eqn:Hfetch;
    [erewrite bind_ok by done | erewrite bind_raise by done].
  - assert (∃ w7, log_info logger FinishedDownload w6 = (Ok tt, w7)
                  ∧ spawned (trace w7) = spawned (trace w6)) as (w7 & Hlog' & Hw7).
    { destruct logger; simpl; eexists; (split; [done |]); by spawned_simpl. }
    erewrite bind_ok by exact Hlog'. unfold emit.
    rewrite <- Hw5, <- Htasks, <- Hw7. by spawned_simpl.
  - destruct Htasks as (started & Hsub & Hk). exists started. by rewrite Hk, Hw5.
Qed.

Lemma reconciler_spawns (path remote_path : string) (given : option (list string))
    (logger : option string) (w : World) :
  PyStr.truthy remote_path = true →
  let location := https_location remote_path in
  let call := maybe_download_with_pget run_tool path (Some remote_path) given logger w in
  match expected_files location given w with
  | (Raise e, _) => fst call = Raise e ∧ spawned (trace (snd call)) = spawned (trace w)
  | (Ok names, w1) =>
      match missing_files_of path names w1 with
      | (Raise e, _) => fst call = Raise e ∧ spawned (trace (snd call)) = spawned (trace w)
      | (Ok missing_files, _) =>
          match call with
          | (Ok _, w') =>
              spawned (trace w')
              = spawned (trace w) ++ map (task_args location path) missing_files
          | (Raise _, w') =>
              ∃ started,
                started `sublist_of` missing_files ∧
                spawned (trace w')
                = spawned (trace w) ++ map (task_args location path) started
          end
      end
  end.
Proof.
  intros Htruthy location call. subst call.
  pose proof (download_missing_spawns path remote_path given logger w) as H.
  simpl in H. fold location in H.
  unfold maybe_download_with_pget. rewrite Htruthy. cbn [when].
  destruct (expected_files location given w) as [[names|e] w1].
  - destruct (missing_files_of path names w1) as [[missing_files|e] w2].
    + destruct (download_missing run_tool path remote_path given logger w)
        as [[[]|e] w'] eqn:Hcall;
        [erewrite bind_ok by done | erewrite bind_raise by done]; done.
    + destruct (download_missing run_tool path remote_path given logger w)
        as [[[]|e'] w'] eqn:Hcall; simpl in H; destruct H as [H1 H2]; [done |].
      erewrite bind_raise by done. by simplify_eq.
  - destruct (download_missing run_tool path remote_path given logger w)
      as [[[]|e'] w'] eqn:Hcall; simpl in H; destruct H as [H1 H2]; [done |].
    erewrite bind_raise by done. by simplify_eq.
Qed.

(** ** The missing set *)

Lemma filter_none {A : Type} (P : A → Prop) `{!∀ x, Decision (P x)} (l : list A) :
  Forall (fun x => ¬ P x) l → filter P l = [].
Proof.
  induction 1 as [|x l Hx _ IH]; [done |].
  by rewrite filter_cons, decide_False.
Qed.

Lemma listdir_ext (w w' : World) (p : string) :
  files w' = files w → cwd w' = cwd w → fst (os.listdir p w') = fst (os.listdir p w).
Proof.
  intros Hf Hc. unfold os.listdir. rewrite (resolve_ext w w') by done. rewrite Hf.
  by repeat case_match.
Qed.

(** C1. When [path] is a directory, the missing names are the expected
    names that are not, letter for letter, the name of an entry directly in
    that directory.  An expected name with a separator is therefore always
    missing, whatever lies deeper in the directory.  [check_files_exist]
    computes the same list, and the fetch tasks the call starts are those of
    the missing names: of all of them when the call returns, of some of them
    when an exception ends it. *)
Theorem missing_is_expected_minus_top_level
    (path remote_path : string) (given : option (list string)) (logger : option string)
    (w w1 : World) (names : list string) :
  PyStr.truthy remote_path = true →
  expected_files (https_location remote_path) given w = (Ok names, w1) →
  os.path_isdir w path = true →
  os.well_named (files w) →
  ∃ q, os.resolve w path = Some q ∧
    let missing_files := filter (fun file => files w !! (q ++ [file]) = None) names in
    missing_files_of path names w1 = (Ok missing_files, w1) ∧
    check_files_exist names path w1 = (Ok missing_files, w1) ∧
    filter (fun file => PyStr.contains "/" file = true) names ⊆ missing_files ∧
    match maybe_download_with_pget run_tool path (Some remote_path) given logger w with
    | (Ok _, w') =>
        spawned (trace w')
        = spawned (trace w) ++ map (task_args (https_location remote_path) path) missing_files
    | (Raise _, w') =>
        ∃ started,
          started `sublist_of` missing_files ∧
          spawned (trace w')
          = spawned (trace w) ++ map (task_args (https_location remote_path) path) started
    end.
Proof.
  intros Htruthy Hexp Hdir Hwell.
  destruct (expected_files_frame (https_location remote_path) given w)
    as (Hfiles & Hcwd & _). rewrite Hexp in Hfiles, Hcwd. simpl in Hfiles, Hcwd.
  rewrite <- (path_isdir_ext w w1) in Hdir by done.
  destruct (listdir_of_directory w1 path Hdir) as (q & Hq & _ & Hexists & Hlist).
  rewrite (resolve_ext w w1) in Hq by done. rewrite Hfiles in Hlist.
  exists q. split; [done |]. intros missing_files.
  assert (filter (fun file => file ∉ os.entries (files w) q) names = missing_files) as Hsame.
  { apply list_filter_iff. intros file.
    by rewrite elem_of_entries, eq_None_not_Some. }
  assert (missing_files_of path names w1 = (Ok missing_files, w1)) as Hmiss.
  { unfold missing_files_of. rewrite Hexists. simpl.
    erewrite bind_ok by exact Hlist. unfold ret. by rewrite Hsame. }
  split_and!.
  - done.
  - unfold check_files_exist. erewrite bind_ok by exact Hlist.
    unfold ret. by rewrite Hsame.
  - intros file [Hsep Hin]%list_elem_of_filter. apply list_elem_of_filter.
    split; [| done]. by apply nested_name_is_no_entry.
  - pose proof (reconciler_spawns path remote_path given logger w Htruthy) as H.
    simpl in H. by rewrite Hexp, Hmiss in H.
Qed.


(** ** Calling twice *)

(** C5. Take the world a first call leaves.  If every name the second call
    expects is then the name of an entry of [path], the second call, with
    the same arguments, starts no fetch task. *)
Theorem second_call_fetches_nothing
    (path remote_path : string) (given : option (list string)) (logger : option string)
    (w0 : World) :
  let w1 :=
    snd (maybe_download_with_pget run_tool path (Some remote_path) given logger w0) in
  (∀ names w2, expected_files (https_location remote_path) given w1 = (Ok names, w2) →
               Forall (fun file => file ∈ os.local_names w1 path) names) →
  spawned (trace (snd (maybe_download_with_pget run_tool path (Some remote_path)
                         given logger w1)))
  = spawned (trace w1).
Proof.
  intros w1 Hpresent. clearbody w1.
  destruct (PyStr.truthy remote_path) eqn:Htruthy.
  2:{ unfold maybe_download_with_pget. by rewrite Htruthy. }
  pose proof (reconciler_spawns path remote_path given logger w1 Htruthy) as H.
  simpl in H.
  destruct (expected_files_frame (https_location remote_path) given w1)
    as (Hfiles & Hcwd & _).
  destruct (expected_files (https_location remote_path) given w1)
    as [[names|e] w2] eqn:Hexp; [| by destruct H].
  simpl in Hfiles, Hcwd. specialize (Hpresent names w2 eq_refl).
  destruct (missing_files_of path names w2) as [[missing_files|e] w3] eqn:Hmiss;
    [| by destruct H].
  assert (missing_files = []) as ->.
  { unfold missing_files_of, os.local_names in *.
    pose proof (listdir_ext w1 w2 path Hfiles Hcwd) as Hsame.
    destruct (os.path_exists w2 path) eqn:Hexists; simpl in Hmiss.
    - destruct (os.listdir path w2) as [[local|e] w4] eqn:Hlist;
        [erewrite bind_ok in Hmiss by done | by erewrite bind_raise in Hmiss by done].
      injection Hmiss as <- _. simpl in Hsame.
      destruct (os.listdir path w1) as [[local'|e] w5]; simplify_eq/=.
      apply filter_none. eapply Forall_impl; [exact Hpresent |]. naive_solver.
    - rewrite (path_exists_ext w1 w2) in Hexists by done.
      assert (fst (os.listdir path w1) = Raise OSError) as Hraise.
      { unfold os.path_exists in Hexists. unfold os.listdir.
        destruct (os.resolve w1 path); [| done].
        apply bool_decide_eq_false in Hexists. by destruct Hexists. }
      destruct (os.listdir path w1) as [[local'|e] w5]; simplify_eq/=.
      destruct (os.makedirs path w2) as [[[]|e'] w6] eqn:Hmk;
        [erewrite bind_ok in Hmiss by done | by erewrite bind_raise in Hmiss by done].
      injection Hmiss as <- _.
      destruct names as [|file rest]; [done |].
      apply Forall_cons in Hpresent as [Hin _]. by apply elem_of_nil in Hin. }
  destruct (maybe_download_with_pget run_tool path (Some remote_path) given logger w1)
    as [[v|e] w']; simpl in *.
  - by rewrite H, app_nil_r.
  - destruct H as (started & Hsub%sublist_nil_r & ->). subst started.
    by rewrite app_nil_r.
Qed.

End ReconcilerProperties.

(** ** The properties on the scenarios *)

Lemma scenario_worlds_well_named :
  os.well_named Scenario.populated ∧ os.well_named Scenario.fresh.
Proof. split; apply (bool_decide_unpack _); by vm_compute. Qed.

(** C1 where [out/weights/model.bin] is already in place: the nested name is
    fetched again, the top-level one is not. *)
Lemma nested_name_is_fetched_again :
  let w := Scenario.world Scenario.populated in
  let names := ["config.json"; "weights/model.bin"; "tokenizer.json"] in
  files w !! ["out"; "weights"; "model.bin"] = Some File ∧
  missing_files_of "out" names w = (Ok ["weights/model.bin"; "tokenizer.json"], w) ∧
  spawned (trace (snd (maybe_download_with_pget Scenario.fetching "out"
                         (Some "gs://bucket/models/x") (Some names) None w)))
  = [ ["pget"; "https://storage.googleapis.com/bucket/models/x/weights/model.bin";
       "out/weights/model.bin"];
      ["curl"; "-w"; curl_info; "-sLo"; "out/tokenizer.json";
       "https://storage.googleapis.com/bucket/models/x/tokenizer.json"] ].
Proof.
  intros w names.
  assert (os.path_isdir w "out" = true) as Hdir by (vm_compute; reflexivity).
  pose proof (missing_is_expected_minus_top_level Scenario.fetching
                "out" "gs://bucket/models/x" (Some names) None w w names
                eq_refl eq_refl Hdir (proj1 scenario_worlds_well_named)) as H.
  destruct H as (q & Hq & Hmissing & _ & _ & Hspawned).
  assert (q = ["out"]) as -> by (vm_compute in Hq; congruence).
  split; [vm_compute; reflexivity |]. split.
  - rewrite Hmissing. vm_compute; reflexivity.
  - assert (fst (maybe_download_with_pget Scenario.fetching "out"
                   (Some "gs://bucket/models/x") (Some names) None w) = Ok "out") as Hok
      by (vm_compute; reflexivity).
    revert Hspawned Hok.
    generalize (maybe_download_with_pget Scenario.fetching "out"
                  (Some "gs://bucket/models/x") (Some names) None w).
    intros [[v|e] w'] Hspawned Hok; [| discriminate Hok].
    simpl. rewrite Hspawned. vm_compute; reflexivity.
Defined.


(** C5 on an empty [out/]: the first call fetches both files, the second
    none. *)
Lemma second_call_fetches_nothing_after_fetch :
  let names := ["config.json"; "weights.bin"] in
  let call :=
    maybe_download_with_pget Scenario.fetching "out" (Some "gs://bucket/models/x")
      (Some names) None in
  let w1 := snd (call (Scenario.world Scenario.fresh)) in
  length (spawned (trace w1)) = 2 ∧
  spawned (trace (snd (call w1))) = spawned (trace w1).
Proof.
  intros names call w1. split; [vm_compute; reflexivity |].
  assert (∀ names' w2,
            expected_files (https_location "gs://bucket/models/x") (Some names) w1
              = (Ok names', w2) →
            Forall (fun file => file ∈ os.local_names w1 "out") names') as Hpresent.
  { intros names' w2 Heq.
    assert (names' = names) as -> by (unfold expected_files, ret in Heq; congruence).
    apply (bool_decide_unpack _). vm_compute. exact I. }
  exact (second_call_fetches_nothing Scenario.fetching "out" "gs://bucket/models/x"
           (Some names) None (Scenario.world Scenario.fresh) Hpresent).
Defined.

(** The end-to-end scenario of the specification: two fetch tasks, the
    first with [curl] and the second with [pget], both destinations written,
    and [out] returned. *)
Example end_to_end :
  let w := Scenario.world Scenario.fresh in
  let call :=
    maybe_download_with_pget Scenario.fetching "out" (Some "gs://bucket/models/x")
      (Some ["config.json"; "weights.bin"]) None w in
  fst call = Ok "out" ∧
  spawned (trace (snd call))
  = [ ["curl"; "-w"; curl_info; "-sLo"; "out/config.json";
       "https://storage.googleapis.com/bucket/models/x/config.json"];
      ["pget"; "https://storage.googleapis.com/bucket/models/x/weights.bin";
       "out/weights.bin"] ] ∧
  files (snd call) !! ["out"; "config.json"] = Some File ∧
  files (snd call) !! ["out"; "weights.bin"] = Some File.
Proof. intros w call. split_and!; vm_compute; reflexivity. Qed.

(** Under a prefix the listing gives the names relative to it, and mangles
    the name of an object that only shares the first characters. *)
Example listing_under_prefix :
  fst (list_remote_filenames "gs://bucket/models/x" (Scenario.world Scenario.fresh))
  = Ok ["config.json"; "weights.bin"; "/notes.txt"].
Proof. vm_compute; reflexivity. Qed.

(** * Further properties of the code *)

(** ** Runs that keep a relation *)

Section Keeps.

Context (R : relation World) `{!PreOrder R}.

Lemma keeps_ret {A : Type} (a : A) : keeps R (ret a).
Proof. intros w. simpl. reflexivity. Qed.

Lemma keeps_raise {A : Type} (e : exn) : keeps R (@raise A e).
Proof. intros w. simpl. reflexivity. Qed.

Lemma keeps_bind {A B : Type} (m : M A) (k : A → M B) :
  keeps R m → (∀ a, keeps R (k a)) → keeps R (bind m k).
Proof.
  intros Hm Hk w. unfold bind. specialize (Hm w).
  destruct (m w) as [[a|e] w1]; simpl in *; [| done].
  etrans; [exact Hm | apply Hk].
Qed.

Lemma keeps_when (c : bool) (body : M unit) : keeps R body → keeps R (when c body).
Proof. destruct c; [done | intros _; apply keeps_ret]. Qed.

(** An action chosen after a look at the world. *)
Lemma keeps_read {A : Type} (m : World → M A) :
  (∀ w0, keeps R (m w0)) → keeps R (fun w => m w w).
Proof. intros H w. apply H. Qed.

Lemma keeps_for_each {A : Type} (body : A → M unit) (l : list A) :
  (∀ x, keeps R (body x)) → keeps R (for_each body l).
Proof.
  intros H. induction l as [|x l IH]; [apply keeps_ret |].
  simpl. apply keeps_bind; [apply H | done].
Qed.

End Keeps.

Lemma throws_ret {A : Type} (Q : exn → Prop) (a : A) : throws Q (ret a).
Proof. by intros w e. Qed.

Lemma throws_bind {A B : Type} (Q : exn → Prop) (m : M A) (k : A → M B) :
  throws Q m → (∀ a, throws Q (k a)) → throws Q (bind m k).
Proof.
  intros Hm Hk w e. unfold bind. specialize (Hm w).
  destruct (m w) as [[a|e'] w1]; simpl in *; [apply Hk | intros [= <-]; by apply Hm].
Qed.

Lemma throws_when (Q : exn → Prop) (c : bool) (body : M unit) :
  throws Q body → throws Q (when c body).
Proof. destruct c; [done | intros _; apply throws_ret]. Qed.

Lemma throws_read {A : Type} (Q : exn → Prop) (m : World → M A) :
  (∀ w0, throws Q (m w0)) → throws Q (fun w => m w w).
Proof. intros H w. apply H. Qed.

Lemma throws_for_each {A : Type} (Q : exn → Prop) (body : A → M unit) (l : list A) :
  (∀ x, throws Q (body x)) → throws Q (for_each body l).
Proof.
  intros H. induction l as [|x l IH]; [apply throws_ret |].
  simpl. apply throws_bind; [apply H | done].
Qed.

Lemma throws_emit (Q : exn → Prop) (e : event) : throws Q (emit e).
Proof. by intros w e'. Qed.

#[local] Instance unobserved_preorder {B : Type} (f : event → option B) :
  PreOrder (unobserved f).
Proof.
  split; [by intros w |]. intros w1 w2 w3 H12 H23. unfold unobserved in *. congruence.
Qed.

#[local] Instance files_kept_preorder : PreOrder files_kept.
Proof.
  split; [by intros w |]. intros w1 w2 w3 [H12 Hc12] [H23 Hc23].
  split; [by etrans | congruence].
Qed.

#[local] Instance no_new_file_preorder (q : list string) : PreOrder (no_new_file q).
Proof.
  split; [intros w H; exact H |]. intros w1 w2 w3 H12 H23 H.
  unfold no_new_file in *. auto.
Qed.

(** ** What the steps add to the trace *)

Lemma emit_unobserved {B : Type} (f : event → option B) (e : event) :
  f e = None → keeps (unobserved f) (emit e).
Proof.
  intros H w. unfold unobserved, emit, with_event. simpl.
  rewrite omap_app. simpl. by rewrite H, app_nil_r.
Qed.

(** A step that leaves the trace alone is seen by no observer. *)
Lemma silent_unobserved {A B : Type} (f : event → option B) (m : M A) :
  (∀ w, trace (snd (m w)) = trace w) → keeps (unobserved f) m.
Proof. intros H w. unfold unobserved. by rewrite H. Qed.

Lemma remove_frame (p : string) (w : World) :
  trace (snd (os.remove p w)) = trace w ∧ cwd (snd (os.remove p w)) = cwd w.
Proof. unfold os.remove. by repeat case_match. Qed.

Lemma log_info_unobserved {B : Type} (f : event → option B) (logger : option string)
    (message : log_message) :
  (∀ marker m, f (LogInfo marker m) = None) → keeps (unobserved f) (log_info logger message).
Proof.
  intros H. destruct logger; [by apply emit_unobserved | apply keeps_ret, _].
Qed.


(** With the names at hand the call goes on as if they had been given. *)
Lemma download_missing_given (run_tool : list string -> World -> option (gmap (list string) kind * completed))
    (path remote_path : string) (given : option (list string)) (logger : option string)
    (names : list string) (w w1 : World) :
  expected_files (https_location remote_path) given w = (Ok names, w1) →
  download_missing run_tool path remote_path given logger w
  = download_missing run_tool path remote_path (Some names) logger w1.
Proof.
  intros Hexp. unfold download_missing.
  erewrite bind_ok by exact Hexp. by erewrite (bind_ok (expected_files _ (Some names))).
Qed.

Section MoreReconcilerProperties.

Variable run_tool : list string -> World -> option (gmap (list string) kind * completed).

(** What every first step and every handling of outputs keeps, the
    [gather] keeps. *)
Lemma keeps_gather (R : relation World) `{!PreOrder R}
    (remote_path path : string) (names : list string) :
  (∀ r d, keeps R (start_fetch run_tool r d)) →
  (∀ process, keeps R (finish_fetch process)) →
  keeps R (download_files_with_pget run_tool remote_path path names).
Proof.
  intros Hstart Hfinish w. unfold download_files_with_pget.
  set (tasks := map _ names). clearbody tasks.
  assert (R w (snd (start_all run_tool tasks w))) as Hall.
  { revert w. induction tasks as [|[r d] rest IH]; intros w; [simpl; reflexivity |].
    cbn [start_all]. specialize (Hstart r d w).
    destruct (start_fetch run_tool r d w) as [outcome w1]. specialize (IH w1).
    destruct (start_all run_tool rest w1) as [outcomes w2]. simpl in *. by etrans. }
  destruct (start_all run_tool tasks w) as [outcomes w1]. simpl in *.
  destruct (first_exception outcomes); [done |].
  etrans; [exact Hall |]. by apply keeps_for_each.
Qed.

(** The exceptions of the [gather] are those of the steps of its tasks. *)
Lemma throws_gather (Q : exn → Prop) (remote_path path : string) (names : list string) :
  (∀ r d, throws Q (start_fetch run_tool r d)) →
  (∀ process, throws Q (finish_fetch process)) →
  throws Q (download_files_with_pget run_tool remote_path path names).
Proof.
  intros Hstart Hfinish w e. unfold download_files_with_pget.
  set (tasks := map _ names). clearbody tasks.
  assert (∀ e', first_exception (fst (start_all run_tool tasks w)) = Some e' → Q e') as Hall.
  { revert w. induction tasks as [|[r d] rest IH]; intros w e'; [done |].
    cbn [start_all]. specialize (Hstart r d w).
    destruct (start_fetch run_tool r d w) as [[process|e''] w1]; specialize (IH w1 e');
      destruct (start_all run_tool rest w1) as [outcomes w2]; simpl in *; [done |].
    intros [= <-]. by apply Hstart. }
  destruct (start_all run_tool tasks w) as [outcomes w1]. simpl in *.
  destruct (first_exception outcomes) as [e'|].
  - intros [= <-]. by apply Hall.
  - by apply throws_for_each.
Qed.

Lemma finish_fetch_unobserved {B : Type} (f : event → option B) (process : completed) :
  (∀ s, f (Printed s) = None) → keeps (unobserved f) (finish_fetch process).
Proof.
  intros Hp. unfold finish_fetch.
  assert (∀ b label, keeps (unobserved f)
            (let* text := decode b in emit (Printed (label +:+ newline +:+ text)))) as Hecho.
  { intros b label. apply keeps_bind; [apply _ | | intros; by apply emit_unobserved].
    apply silent_unobserved. intros w. unfold decode. by destruct (PyStr.utf8 b). }
  apply keeps_bind; [apply _ | |]; [| intros _]; apply keeps_when; try apply _; apply Hecho.
Qed.

Lemma finish_fetch_throws (process : completed) :
  throws (fun e => e = UnicodeDecodeError) (finish_fetch process).
Proof.
  intros w e. rewrite finish_fetch_outcome.
  destruct (PyStr.utf8 (stdout process) && PyStr.utf8 (stderr process)); congruence.
Qed.

Lemma spawn_unobserved {B : Type} (f : event → option B) (args : list string) :
  (∀ a, f (Spawn a) = None) → keeps (unobserved f) (spawn run_tool args).
Proof.
  intros H w. unfold spawn. destruct (run_tool args w) as [[fs r]|]; [| done].
  apply (emit_unobserved f _ (H args) (with_files fs w)).
Qed.

Lemma fetch_tasks_unobserved {B : Type} (f : event → option B)
    (remote_path path : string) (names : list string) :
  (∀ s, f (Printed s) = None) → (∀ a, f (Spawn a) = None) →
  keeps (unobserved f) (download_files_with_pget run_tool remote_path path names).
Proof.
  intros Hp Hs. apply keeps_gather; [apply _ | | intros; by apply finish_fetch_unobserved].
  intros r d. unfold start_fetch.
  apply keeps_bind; [apply _ | by apply emit_unobserved |]. intros _.
  by apply spawn_unobserved.
Qed.

(** The reconciler with the names given, for an observer of neither prints
    nor process starts nor log calls. *)
Lemma download_missing_unobserved {B : Type} (f : event → option B)
    (path remote_path : string) (names : list string) (logger : option string) :
  (∀ s, f (Printed s) = None) → f PrintedFinished = None →
  (∀ a, f (Spawn a) = None) → (∀ marker m, f (LogInfo marker m) = None) →
  keeps (unobserved f) (download_missing run_tool path remote_path (Some names) logger).
Proof.
  intros Hp Hf Hs Hl. unfold download_missing.
  apply keeps_bind; [apply _ | apply keeps_ret, _ |]. intros names'.
  apply keeps_bind; [apply _ | |].
  { apply silent_unobserved. apply missing_files_of_frame. }
  intros missing_files.
  apply keeps_bind; [apply _ | |].
  { apply silent_unobserved. apply make_parent_dirs_frame. }
  intros _. apply keeps_when; [apply _ |].
  apply keeps_bind; [apply _ | by apply emit_unobserved |]. intros _.
  apply keeps_bind; [apply _ | by apply log_info_unobserved |]. intros _.
  apply keeps_bind; [apply _ | by apply fetch_tasks_unobserved |]. intros _.
  apply keeps_bind; [apply _ | by apply log_info_unobserved |]. intros _.
  by apply emit_unobserved.
Qed.

(** The world a call of the reconciler leaves is the one its body leaves. *)
Lemma maybe_download_world (path : string) (remote_path : option string)
    (given : option (list string)) (logger : option string) (w : World) :
  snd (maybe_download_with_pget run_tool path remote_path given logger w) =
  match remote_path with
  | Some location =>
      if PyStr.truthy location
      then snd (download_missing run_tool path location given logger w)
      else w
  | None => w
  end.
Proof.
  unfold maybe_download_with_pget, bind.
  destruct remote_path as [location|]; [| done].
  destruct (PyStr.truthy location); [| done]. simpl.
  by destruct (download_missing _ _ _ _ _ w) as [[[]|e] w'].
Qed.

Lemma maybe_download_outcome (path : string) (remote_path : option string)
    (given : option (list string)) (logger : option string) (w : World) :
  fst (maybe_download_with_pget run_tool path remote_path given logger w) =
  match remote_path with
  | Some location =>
      if PyStr.truthy location
      then match fst (download_missing run_tool path location given logger w) with
           | Ok _ => Ok path
           | Raise e => Raise e
           end
      else Ok path
  | None => Ok path
  end.
Proof.
  unfold maybe_download_with_pget, bind.
  destruct remote_path as [location|]; [| done].
  destruct (PyStr.truthy location); [| done]. simpl.
  by destruct (download_missing _ _ _ _ _ w) as [[[]|e] w'].
Qed.

(** ** The exceptions of the steps *)

Lemma throws_weaken {A : Type} (Q Q' : exn → Prop) (m : M A) :
  (∀ e, Q e → Q' e) → throws Q m → throws Q' m.
Proof. intros H Hm w e He. eauto. Qed.

Lemma listdir_throws (p : string) : throws (fun e => e = OSError) (os.listdir p).
Proof. intros w e. unfold os.listdir. repeat case_match; simpl; congruence. Qed.

Lemma makedirs_throws (p : string) : throws (fun e => e = OSError) (os.makedirs p).
Proof. intros w e. unfold os.makedirs. repeat case_match; simpl; congruence. Qed.

Lemma spawn_throws (args : list string) :
  throws (fun e => e = OSError) (spawn run_tool args).
Proof. intros w e. unfold spawn. repeat case_match; simpl; congruence. Qed.

Lemma log_info_throws (Q : exn → Prop) (logger : option string) (message : log_message) :
  throws Q (log_info logger message).
Proof. destruct logger; [apply throws_emit | apply throws_ret]. Qed.

Lemma start_fetch_throws (remote_path dest_path : string) :
  throws (fun e => e = OSError) (start_fetch run_tool remote_path dest_path).
Proof.
  unfold start_fetch. apply throws_bind; [apply throws_emit |]. intros _.
  apply spawn_throws.
Qed.

(** With the names given the reconciler ends with no exception but [OSError],
    from the file system or from a process that cannot be started, and
    [UnicodeDecodeError], from the outputs of a process. *)
Lemma download_missing_given_throws (path remote_path : string) (names : list string)
    (logger : option string) :
  throws (fun e => e = OSError ∨ e = UnicodeDecodeError)
    (download_missing run_tool path remote_path (Some names) logger).
Proof.
  set (Q := fun e => e = OSError ∨ e = UnicodeDecodeError).
  assert (∀ A (m : M A), throws (fun e => e = OSError) m → throws Q m) as Hos.
  { intros A m. apply throws_weaken. by left. }
  unfold download_missing.
  apply throws_bind; [apply throws_ret |]. intros names'.
  apply throws_bind.
  { apply Hos. intros w e. unfold missing_files_of.
    destruct (negb (os.path_exists w path)).
    - exact (throws_bind _ _ _ (makedirs_throws path)
               (fun _ => throws_ret _ names') w e).
    - exact (throws_bind _ _ _ (listdir_throws path)
               (fun local_files => throws_ret _ _) w e). }
  intros missing_files. apply throws_bind.
  { apply Hos. apply throws_for_each. intros file. apply throws_when.
    intros w e. apply (throws_when _ _ _ (makedirs_throws _) w e). }
  intros _. apply throws_when.
  apply throws_bind; [apply throws_emit |]. intros _.
  apply throws_bind; [apply log_info_throws |]. intros _.
  apply throws_bind.
  { apply throws_gather.
    - intros r d. apply Hos, start_fetch_throws.
    - intros process. eapply throws_weaken; [| apply finish_fetch_throws].
      by right. }
  intros _. apply throws_bind; [apply log_info_throws |]. intros _. apply throws_emit.
Qed.

Lemma list_remote_filenames_throws (remote_path : string) :
  throws (fun e => e = ImportError ∨ e = NotFound) (list_remote_filenames remote_path).
Proof.
  intros w e. unfold list_remote_filenames, bind, import_storage.
  destruct (bucket_and_prefix remote_path) as [bucket_name prefix].
  destruct (gcs w) as [buckets|] eqn:Hgcs; [| intros [= <-]; by left].
  unfold emit, list_blobs, ret. simpl. rewrite Hgcs.
  destruct (buckets !! bucket_name); simpl; [done | intros [= <-]; by right].
Qed.

(** ** Listing requests *)

(** X1. With the names given, the reconciler sends no listing request to the
    object store and never ends with the [ImportError] of a missing storage
    library: it does not need the library, installed or not. *)
Theorem given_names_need_no_storage (path : string) (remote_path : option string)
    (names : list string) (logger : option string) (w : World) :
  let call := maybe_download_with_pget run_tool path remote_path (Some names) logger w in
  listings (trace (snd call)) = listings (trace w) ∧
  match fst call with
  | Raise ImportError => False
  | _ => True
  end.
Proof.
  intros call. subst call. rewrite maybe_download_world, maybe_download_outcome.
  destruct remote_path as [location|]; [| by split].
  destruct (PyStr.truthy location); [| by split]. split.
  - by apply (download_missing_unobserved _ path location names logger).
  - pose proof (download_missing_given_throws path location names logger w) as H.
    destruct (fst (download_missing _ _ _ _ _ w)) as [[]|e]; [done |].
    by destruct (H e eq_refl) as [-> | ->].
Qed.

(** X2. The reconciler never ends with [CalledProcessError]: the exit code
    of a fetch tool never reaches the caller as an exception. *)
Theorem reconciler_never_raises_called_process_error (path : string)
    (remote_path : option string) (given : option (list string))
    (logger : option string) (w : World) :
  match fst (maybe_download_with_pget run_tool path remote_path given logger w) with
  | Raise (CalledProcessError _ _) => False
  | _ => True
  end.
Proof.
  rewrite maybe_download_outcome.
  destruct remote_path as [location|]; [| done].
  destruct (PyStr.truthy location); [| done].
  destruct (expected_files (https_location location) given w) as [[names|e] w1] eqn:Hexp.
  - rewrite (download_missing_given _ _ _ _ _ _ _ _ Hexp).
    pose proof (download_missing_given_throws path location names logger w1) as H.
    destruct (fst (download_missing _ _ _ _ _ w1)) as [[]|e]; [done |].
    by destruct (H e eq_refl) as [-> | ->].
  - unfold download_missing. erewrite bind_raise by exact Hexp. simpl.
    destruct given as [l|]; [done |].
    pose proof (list_remote_filenames_throws (https_location location) w e) as H.
    simpl in Hexp. rewrite Hexp in H. by destruct (H eq_refl) as [-> | ->].
Qed.

(** X3. The listing is not remembered: a call without names, with a
    non-empty location and the storage library installed, sends exactly one
    listing request, for the bucket and the prefix of the location in its
    HTTPS form, whatever the outcome of the call. *)
Theorem every_call_lists_again (path remote_path : string) (logger : option string)
    (w : World) (buckets : gmap string (list string)) :
  PyStr.truthy remote_path = true →
  gcs w = Some buckets →
  listings (trace (snd (maybe_download_with_pget run_tool path (Some remote_path)
                          None logger w)))
  = listings (trace w) ++ [bucket_and_prefix (https_location remote_path)].
Proof.
  intros Htruthy Hgcs. rewrite maybe_download_world, Htruthy.
  assert (listings (trace (snd (list_remote_filenames (https_location remote_path) w)))
          = listings (trace w) ++ [bucket_and_prefix (https_location remote_path)]) as Hlist.
  { unfold list_remote_filenames, bind, import_storage. rewrite Hgcs.
    destruct (bucket_and_prefix (https_location remote_path)) as [bucket_name prefix].
    unfold emit, list_blobs, ret. simpl. rewrite Hgcs.
    destruct (buckets !! bucket_name); unfold listings, with_event; simpl;
      rewrite ?omap_app; simpl; by rewrite ?app_nil_r. }
  destruct (expected_files (https_location remote_path) None w) as [[names|e] w1] eqn:Hexp.
  - rewrite (download_missing_given _ _ _ _ _ _ _ _ Hexp).
    simpl in Hexp. rewrite Hexp in Hlist. simpl in Hlist. rewrite <- Hlist.
    by apply (download_missing_unobserved _ path remote_path names logger).
  - unfold download_missing. erewrite bind_raise by exact Hexp.
    simpl in Hexp. by rewrite Hexp in Hlist.
Qed.

(** ** Entries that stay *)

Lemma walk_mono (fs fs' : gmap (list string) kind) (comps cur q : list string) :
  fs ⊆ fs' → os.walk fs cur comps = Some q → os.walk fs' cur comps = Some q.
Proof.
  intros Hsub. revert cur. induction comps as [|c rest IH]; intros cur; simpl; [done |].
  destruct (fs !! cur) as [[]|] eqn:Hcur; try done.
  rewrite (lookup_weaken _ _ _ _ Hcur Hsub).
  destruct (os.stays c); [apply IH |]. destruct (decide (c = "..")); apply IH.
Qed.

Lemma resolve_mono (w w' : World) (p : string) (q : list string) :
  files_kept w w' → os.resolve w p = Some q → os.resolve w' p = Some q.
Proof.
  intros [Hsub Hcwd]. unfold os.resolve, os.origin. rewrite Hcwd.
  destruct (PyStr.truthy p); [| done].
  destruct (os.walk (files w) _ _) as [q'|] eqn:Hwalk; [| done].
  rewrite (walk_mono _ _ _ _ _ Hsub Hwalk).
  destruct (files w !! q') as [k|] eqn:Hq; [| done].
  by rewrite (lookup_weaken _ _ _ _ Hq Hsub).
Qed.

(** What exists keeps existing, and a directory stays one. *)
Lemma path_exists_mono (w w' : World) (p : string) :
  files_kept w w' → os.path_exists w p = true → os.path_exists w' p = true.
Proof.
  intros Hkept. unfold os.path_exists. rewrite !bool_decide_eq_true.
  intros [q Hq]. exists q. by eapply resolve_mono.
Qed.

Lemma path_isdir_mono (w w' : World) (p : string) :
  files_kept w w' → os.path_isdir w p = true → os.path_isdir w' p = true.
Proof.
  intros Hkept. unfold os.path_isdir.
  destruct (os.resolve w p) as [q|] eqn:Hq; [| done].
  rewrite (resolve_mono _ _ _ _ Hkept Hq). rewrite !bool_decide_eq_true.
  intros Hdir. destruct Hkept as [Hsub _]. by eapply lookup_weaken.
Qed.

Lemma path_isdir_exists (w : World) (p : string) :
  os.path_isdir w p = true → os.path_exists w p = true.
Proof.
  unfold os.path_isdir, os.path_exists. destruct (os.resolve w p); [| done].
  intros _. apply bool_decide_eq_true. by eexists.
Qed.

Lemma makedirs_files_kept (p : string) : keeps files_kept (os.makedirs p).
Proof. intros w. destruct (makedirs_frame p w) as (_ & Hcwd & _ & Hsub). by split. Qed.

Lemma emit_files_kept (e : event) : keeps files_kept (emit e).
Proof. by intros w. Qed.

Lemma log_info_files_kept (logger : option string) (message : log_message) :
  keeps files_kept (log_info logger message).
Proof. destruct logger; by intros w. Qed.

Lemma make_parent_dirs_files_kept (path : string) (missing_files : list string) :
  keeps files_kept (make_parent_dirs path missing_files).
Proof.
  apply keeps_for_each; [apply _ |]. intros file. apply keeps_when; [apply _ |].
  intros w. simpl. apply keeps_when; [apply _ | apply makedirs_files_kept].
Qed.

Lemma missing_files_of_files_kept (path : string) (names : list string) :
  keeps files_kept (missing_files_of path names).
Proof.
  intros w. unfold missing_files_of. destruct (negb (os.path_exists w path)).
  - apply (keeps_bind files_kept (os.makedirs path) (fun _ => ret names));
      [apply makedirs_files_kept | intros; apply keeps_ret, _].
  - unfold bind. pose proof (listdir_world w path) as H.
    destruct (os.listdir path w) as [[local|e] w1]; simpl in *; by subst.
Qed.

Lemma bind_ok_inv {A B : Type} (m : M A) (k : A → M B) (w w' : World) (b : B) :
  bind m k w = (Ok b, w') → ∃ a w1, m w = (Ok a, w1) ∧ k a w1 = (Ok b, w').
Proof.
  unfold bind. destruct (m w) as [[a|e] w1]; [| done]. intros H. by exists a, w1.
Qed.


(** X5. With tools that keep every entry they find, so does the reconciler:
    after the call, ended normally or not, every file and directory of
    before is still there with its kind, and every path that existed still
    exists. *)
Theorem reconciler_keeps_entries (path : string) (remote_path : option string)
    (given : option (list string)) (logger : option string) (w : World) :
  (∀ args w0 fs r, run_tool args w0 = Some (fs, r) → files w0 ⊆ fs) →
  let w' := snd (maybe_download_with_pget run_tool path remote_path given logger w) in
  files w ⊆ files w' ∧
  ∀ p, os.path_exists w p = true → os.path_exists w' p = true.
Proof.
  intros Htool w'.
  assert (files_kept w w') as Hkept.
  { subst w'. rewrite maybe_download_world.
    destruct remote_path as [location|]; [| done].
    destruct (PyStr.truthy location); [| done].
    revert w. change (keeps files_kept (download_missing run_tool path location given logger)).
    unfold download_missing. apply keeps_bind; [apply _ | |].
    { intros w. destruct (expected_files_frame (https_location location) given w)
        as (Hf & Hc & _). split; [by rewrite Hf | done]. }
    intros names. apply keeps_bind; [apply _ | apply missing_files_of_files_kept |].
    intros missing_files.
    apply keeps_bind; [apply _ | apply make_parent_dirs_files_kept |].
    intros _. apply keeps_when; [apply _ |].
    apply keeps_bind; [apply _ | apply emit_files_kept |]. intros _.
    apply keeps_bind; [apply _ | apply log_info_files_kept |]. intros _.
    apply keeps_bind; [apply _ | |].
    { apply keeps_gather; [apply _ | |].
      - intros r d. unfold start_fetch.
        apply keeps_bind; [apply _ | apply emit_files_kept |]. intros _.
        intros w. unfold spawn. destruct (run_tool _ w) as [[fs r']|] eqn:Hrun; [| done].
        split; [by eapply Htool | done].
      - intros process w. unfold finish_fetch, bind, when, decode, ret, raise, emit.
        by destruct (PyStr.truthy (stdout process)), (PyStr.truthy (stderr process)),
             (PyStr.utf8 (stdout process)), (PyStr.utf8 (stderr process)). }
    intros _. apply keeps_bind; [apply _ | apply log_info_files_kept |]. intros _.
    apply emit_files_kept. }
  split; [apply Hkept |]. intros p. by apply path_exists_mono.
Qed.

(** X6. When [path] names something that is not a directory, a regular
    file, the reconciler raises [OSError] from [os.listdir]: nothing is
    created, printed or fetched after the names were found. *)
Theorem path_must_be_a_directory (path remote_path : string)
    (given : option (list string)) (logger : option string)
    (w w1 : World) (names : list string) :
  PyStr.truthy remote_path = true →
  expected_files (https_location remote_path) given w = (Ok names, w1) →
  os.path_exists w path = true →
  os.path_isdir w path = false →
  maybe_download_with_pget run_tool path (Some remote_path) given logger w
  = (Raise OSError, w1).
Proof.
  intros Htruthy Hexp Hexists Hdir.
  destruct (expected_files_frame (https_location remote_path) given w)
    as (Hfiles & Hcwd & _). rewrite Hexp in Hfiles, Hcwd. simpl in Hfiles, Hcwd.
  rewrite <- (path_exists_ext w w1) in Hexists by done.
  rewrite <- (path_isdir_ext w w1) in Hdir by done.
  assert (os.listdir path w1 = (Raise OSError, w1)) as Hlist.
  { unfold os.listdir, os.path_isdir in *.
    destruct (os.resolve w1 path) as [q|]; [| done].
    apply bool_decide_eq_false in Hdir. by destruct (files w1 !! q) as [[]|]. }
  unfold maybe_download_with_pget. rewrite Htruthy. cbn [when].
  erewrite bind_raise; [done |].
  rewrite (download_missing_given _ _ _ _ _ _ _ _ Hexp). unfold download_missing.
  erewrite (bind_ok (expected_files _ (Some names))) by reflexivity.
  erewrite bind_raise; [done |].
  unfold missing_files_of. rewrite Hexists. simpl. by erewrite bind_raise by exact Hlist.
Qed.

(** ** [download_file] and what was at the destination *)

(** X7. [download_file] refuses a destination that is a directory:
    [os.remove] raises [OSError] after the announcement was printed, nothing
    is removed and no process is started. *)
Theorem download_file_refuses_a_directory (file local_filename : string) (w : World) :
  os.path_isdir w local_filename = true →
  download_file run_tool file local_filename w
  = (Raise OSError,
     with_event (Printed ("Downloading " +:+ file +:+ " to " +:+ local_filename)) w).
Proof.
  intros Hdir. unfold download_file.
  erewrite bind_ok by reflexivity. erewrite bind_raise; [done |].
  set (w0 := with_event _ w).
  assert (os.path_isdir w0 local_filename = true) as Hdir0 by done.
  rewrite (path_isdir_exists _ _ Hdir0). cbn [when].
  unfold os.remove, os.path_isdir in *.
  destruct (os.resolve w0 local_filename) as [q|]; [| done].
  apply bool_decide_eq_true in Hdir0. by rewrite Hdir0.
Qed.

Lemma mkwalk_adds_directories (comps : list string) (fs : gmap (list string) kind)
    (cur p : list string) :
  snd (os.mkwalk fs cur comps) !! p = Some File → fs !! p = Some File.
Proof.
  revert fs cur. induction comps as [|c rest IH]; intros fs cur; simpl; [done |].
  destruct (fs !! cur) as [[]|]; simpl; try done.
  destruct (os.stays c); [apply IH |].
  destruct (decide (c = "..")); [apply IH |].
  destruct (fs !! (cur ++ [c])) eqn:Hc; [apply IH |].
  intros H%IH. apply lookup_insert_Some in H as [[_ [=]] | [_ H]]. done.
Qed.

Lemma makedirs_no_new_file (q : list string) (p : string) :
  keeps (no_new_file q) (os.makedirs p).
Proof.
  intros w. unfold no_new_file, os.makedirs. destruct (PyStr.truthy p); [| done].
  pose proof (mkwalk_adds_directories (PyStr.split "/" p) (files w) (os.origin w p) q).
  by destruct (os.mkwalk _ _ _) as [[] fs].
Qed.

(** X8. [download_file] removes the regular file it finds at the destination
    before it starts [pget].  With a tool that writes no file there, no
    regular file is at the destination after the call, whatever its outcome:
    a download that fails has still cost the previous copy. *)
Theorem download_file_removes_the_old_file (file local_filename : string) (w : World)
    (q : list string) :
  os.resolve w local_filename = Some q →
  files w !! q = Some File →
  (∀ args w0 fs r, run_tool args w0 = Some (fs, r) →
                   fs !! q = Some File → files w0 !! q = Some File) →
  files (snd (download_file run_tool file local_filename w)) !! q ≠ Some File.
Proof.
  intros Hq Hfile Htool. unfold download_file.
  erewrite bind_ok by reflexivity. set (w0 := with_event _ w).
  assert (os.path_exists w0 local_filename = true) as Hexists.
  { apply bool_decide_eq_true. exists q. exact Hq. }
  assert (os.remove local_filename w0
          = (Ok tt, with_files (delete q (files w)) w0)) as Hremove.
  { unfold os.remove. change (os.resolve w0 local_filename) with (os.resolve w local_filename).
    rewrite Hq. simpl. by rewrite Hfile. }
  erewrite bind_ok; [| by rewrite Hexists].
  set (w2 := with_files _ w0). intros Hleft.
  assert (keeps (no_new_file q)
            (when (PyStr.contains "/" local_filename)
               (fun w3 => when (negb (os.path_exists w3 (os.path_dirname local_filename)))
                            (os.makedirs (os.path_dirname local_filename)) w3) ;;;
             check_call run_tool ["pget"; file; local_filename])) as Hkeeps.
  { apply keeps_bind; [apply _ | |].
    - apply keeps_when; [apply _ |]. intros w3. simpl.
      apply keeps_when; [apply _ | apply makedirs_no_new_file].
    - intros _. unfold check_call. apply keeps_bind; [apply _ | |].
      + intros w3. unfold spawn.
        destruct (run_tool _ w3) as [[fs r]|] eqn:Hrun; [| by intros ?].
        intros H. by eapply Htool.
      + intros r. destruct (decide (returncode r = 0%Z)); by intros w3. }
  apply Hkeeps in Hleft. unfold w2 in Hleft. simpl in Hleft.
  by rewrite lookup_delete_eq in Hleft.
Qed.

(** ** [check_files_exist] *)

(** X9. [check_files_exist] never changes the world.  On a directory it
    returns the expected names that [os.listdir] does not give; on anything
    else, a missing path or a regular file, it raises [OSError], where the
    reconciler would create the directory. *)
Theorem check_files_exist_outcome (remote_files : list string) (local_path : string)
    (w : World) :
  check_files_exist remote_files local_path w =
  if os.path_isdir w local_path
  then (Ok (filter (fun file => file ∉ os.local_names w local_path) remote_files), w)
  else (Raise OSError, w).
Proof.
  unfold check_files_exist, bind, os.local_names, os.path_isdir, os.listdir.
  destruct (os.resolve w local_path) as [q|]; [| done].
  destruct (files w !! q) as [[]|]; by simpl.
Qed.

Lemma filter_again {A : Type} (P : A → Prop) `{!∀ x, Decision (P x)} (l : list A) :
  filter P (filter P l) = filter P l.
Proof.
  induction l as [|x l IH]; [done |]. rewrite (filter_cons _ x l).
  destruct (decide (P x)) as [Hx|Hx]; [| done].
  by rewrite filter_cons, decide_True, IH.
Qed.

(** X10. The names [check_files_exist] returns are expected names in their
    order, repetitions kept, and checking them again returns them all. *)
Theorem check_files_exist_again (remote_files : list string) (local_path : string)
    (w w' : World) (missing_files : list string) :
  check_files_exist remote_files local_path w = (Ok missing_files, w') →
  missing_files `sublist_of` remote_files ∧
  check_files_exist missing_files local_path w = (Ok missing_files, w).
Proof.
  unfold check_files_exist. intros (local_files & w1 & Hlist & [= <- _])%bind_ok_inv.
  pose proof (listdir_world w local_path) as Hworld. rewrite Hlist in Hworld.
  simpl in Hworld. subst w1. split; [apply sublist_filter |].
  erewrite bind_ok by exact Hlist. unfold ret. by rewrite filter_again.
Qed.

(** ** The logger *)


End MoreReconcilerProperties.

(** ** Locations *)

Lemma replace_absent (old new s : string) :
  PyStr.contains old s = false → PyStr.replace old new s = s.
Proof.
  unfold PyStr.replace. induction s as [|a s IH]; [done |].
  cbn [PyStr.contains PyStr.replace_from]. intros [Hhere Hlater]%orb_false_iff.
  by rewrite Hhere, IH.
Qed.

Lemma string_app_assoc (s t u : string) : (s +:+ t) +:+ u = s +:+ t +:+ u.
Proof. induction s as [|a s IH]; [done |]. simpl. by rewrite IH. Qed.

Lemma contains_app_l (old t u : string) :
  PyStr.contains old t = true → PyStr.contains old (t +:+ u) = true.
Proof.
  induction t as [|a t IH].
  - cbn [PyStr.contains]. rewrite orb_false_r. intros [x Hx]%startswith_spec.
    destruct old; [| done]. by destruct u.
  - cbn [PyStr.contains]. intros [Hhere | Hlater]%orb_true_iff.
    + apply startswith_spec in Hhere as [x Hx]. rewrite Hx, string_app_assoc.
      destruct (old +:+ x +:+ u) as [|b r] eqn:Heq.
      * destruct old; [done | discriminate].
      * cbn [PyStr.contains]. apply orb_true_iff. left. rewrite <- Heq.
        apply startswith_spec. by eexists.
    + change (String a t +:+ u) with (String a (t +:+ u)). cbn [PyStr.contains].
      apply orb_true_iff. right. by apply IH.
Qed.

Lemma rstrip_prefix (c : ascii) (s : string) : ∃ u, s = PyStr.rstrip c s +:+ u.
Proof.
  induction s as [|a s [u IH]]; [by exists EmptyString |]. cbn [PyStr.rstrip].
  destruct (PyStr.rstrip c s) as [|b r].
  - destruct (decide (a = c)); [by exists (String a s) |]. exists s. by simpl.
  - exists u. simpl in *. by rewrite <- IH.
Qed.

Lemma rstrip_app (c : ascii) (pre s : string) :
  PyStr.rstrip c s ≠ EmptyString →
  PyStr.rstrip c (pre +:+ s) = pre +:+ PyStr.rstrip c s.
Proof.
  intros Hne. induction pre as [|a pre IH]; [done |].
  change (String a pre +:+ s) with (String a (pre +:+ s)).
  cbn [PyStr.rstrip]. rewrite IH.
  change (String a pre +:+ PyStr.rstrip c s) with (String a (pre +:+ PyStr.rstrip c s)).
  destruct (pre +:+ PyStr.rstrip c s) as [|b r] eqn:Heq; [| done].
  destruct pre; simpl in Heq; [done | discriminate].
Qed.

Lemma bucket_and_prefix_plain (s : string) :
  PyStr.contains "gs://" s = false →
  PyStr.contains "https://storage.googleapis.com/" s = false →
  bucket_and_prefix s =
  (default EmptyString (head (PyStr.split "/" s)),
   PyStr.join "/" (tail (PyStr.split "/" s))).
Proof.
  intros Hgs Hhttps. unfold bucket_and_prefix.
  by rewrite (replace_absent _ _ s Hhttps), (replace_absent _ _ s Hgs).
Qed.

(** X12. The two forms of a location the docstring gives name the same
    bucket and prefix: with either scheme in front, [bucket_and_prefix]
    gives what it gives for the part after the scheme. *)
Theorem both_forms_name_the_same_objects (s : string) :
  PyStr.contains "gs://" s = false →
  PyStr.contains "https://storage.googleapis.com/" s = false →
  bucket_and_prefix ("gs://" +:+ s) = bucket_and_prefix s ∧
  bucket_and_prefix ("https://storage.googleapis.com/" +:+ s) = bucket_and_prefix s.
Proof.
  intros Hgs Hhttps.
  assert (PyStr.replace "https://storage.googleapis.com/" EmptyString s = s) as H1
    by by apply replace_absent.
  assert (PyStr.replace "gs://" EmptyString s = s) as H2 by by apply replace_absent.
  unfold bucket_and_prefix, PyStr.replace in *. split.
  - cbn [String.append PyStr.replace_from PyStr.startswith String.length Nat.sub].
    simpl. by rewrite H1, H2.
  - simpl. by rewrite H1, H2.
Qed.

(** X13. The bucket name holds no separator, and the bucket name, a
    separator and the prefix give the location back; a location without a
    separator is its own bucket name and has the empty prefix. *)
Theorem bucket_and_prefix_give_the_location_back (s : string) :
  PyStr.contains "gs://" s = false →
  PyStr.contains "https://storage.googleapis.com/" s = false →
  PyStr.contains "/" (bucket_and_prefix s).1 = false ∧
  (s = (bucket_and_prefix s).1 +:+ "/" +:+ (bucket_and_prefix s).2 ∨
   s = (bucket_and_prefix s).1 ∧ (bucket_and_prefix s).2 = EmptyString).
Proof.
  intros Hgs Hhttps. rewrite (bucket_and_prefix_plain s Hgs Hhttps). simpl.
  pose proof (join_split "/" s) as Hjoin.
  pose proof (split_no_separator "/" s) as Hsep.
  destruct (PyStr.split "/" s) as [|bucket_name prefixes]; simpl.
  - split; [done |]. right. by simpl in Hjoin.
  - split.
    + destruct (PyStr.contains "/" bucket_name) eqn:Hc; [| done].
      apply contains_slash_spec in Hc as (pre & post & Hc).
      exfalso. by apply (Hsep bucket_name (list_elem_of_here _ _) pre post).
    + destruct prefixes as [|x r]; [by right |]. left.
      by rewrite <- Hjoin.
Qed.

(** Whichever form the caller gives, the location used is the HTTPS one
    without its trailing separators. *)
Lemma https_location_of_both_forms (s : string) :
  PyStr.rstrip "/" s ≠ EmptyString →
  PyStr.contains "gs://" s = false →
  https_location ("gs://" +:+ s)
    = "https://storage.googleapis.com/" +:+ PyStr.rstrip "/" s ∧
  https_location ("https://storage.googleapis.com/" +:+ s)
    = "https://storage.googleapis.com/" +:+ PyStr.rstrip "/" s.
Proof.
  intros Hne Hgs. unfold https_location. rewrite !rstrip_app by done.
  assert (PyStr.contains "gs://" (PyStr.rstrip "/" s) = false) as Hgs'.
  { destruct (PyStr.contains "gs://" (PyStr.rstrip "/" s)) eqn:Hc; [| done].
    destruct (rstrip_prefix "/" s) as [u Hu].
    apply (contains_app_l _ _ u) in Hc. rewrite <- Hu in Hc. congruence. }
  apply (replace_absent _ "https://storage.googleapis.com/") in Hgs'.
  unfold PyStr.replace in *. split; simpl; by rewrite Hgs'.
Qed.

(** X15. Under a prefix every object of which continues with a separator,
    the listing returns the names relative to the prefix, in the order of
    the bucket. *)
Theorem listing_under_a_directory_prefix (remote_path : string) (w : World)
    (buckets : gmap string (list string)) (names rests : list string) :
  gcs w = Some buckets →
  buckets !! (bucket_and_prefix remote_path).1 = Some names →
  Forall2 (fun name rest => name = (bucket_and_prefix remote_path).2 +:+ "/" +:+ rest)
    (filter (fun name => PyStr.startswith (bucket_and_prefix remote_path).2 name = true)
       names) rests →
  fst (list_remote_filenames remote_path w) = Ok rests.
Proof.
  intros Hgcs Hnames Hunder.
  rewrite (list_remote_filenames_value remote_path w buckets names Hgcs Hnames).
  f_equal. induction Hunder as [|name rest l rests' -> _ IH]; [done |].
  cbn [map]. by rewrite drop_prefix_and_separator, IH.
Qed.

(** X16. Within a call the tool of a fetch task depends on the name of the
    file alone: [curl] for a name that ends with [json], [pget] for any
    other, whatever the location and the directory. *)
Theorem dispatch_depends_on_the_name (remote_path path file : string) :
  program (task_args remote_path path file)
  = if PyStr.endswith "json" file then "curl" else "pget".
Proof.
  unfold task_args, fetch_args, program.
  assert (PyStr.endswith "json" (remote_path +:+ "/" +:+ file)
          = PyStr.endswith "json" file) as ->; [| by destruct (PyStr.endswith _ file)].
  induction remote_path as [|a r IH].
  - change (EmptyString +:+ "/" +:+ file) with (String "/" file).
    cbn [PyStr.endswith]. by destruct (decide (String "/" file = "json")).
  - change (String a r +:+ "/" +:+ file) with (String a (r +:+ "/" +:+ file)).
    cbn [PyStr.endswith].
    destruct (decide (String a (r +:+ "/" +:+ file) = "json")) as [Heq|]; [| exact IH].
    exfalso. destruct r as [|? [|? [|? [|? ?]]]]; simpl in Heq; congruence.
Qed.

(** ** Equal locations, equal calls *)

Section SameLocation.

Variable run_tool : list string -> World -> option (gmap (list string) kind * completed).

(** The reconciler uses its remote location through [https_location] only. *)
Lemma same_location_same_call (path r1 r2 : string) (given : option (list string))
    (logger : option string) (w : World) :
  PyStr.truthy r1 = true → PyStr.truthy r2 = true →
  https_location r1 = https_location r2 →
  maybe_download_with_pget run_tool path (Some r1) given logger w
  = maybe_download_with_pget run_tool path (Some r2) given logger w.
Proof.
  intros H1 H2 Hloc. unfold maybe_download_with_pget, download_missing.
  by rewrite H1, H2, Hloc.
Qed.

Lemma rstrip_snoc (c : ascii) (s : string) :
  PyStr.rstrip c (s +:+ String c EmptyString) = PyStr.rstrip c s.
Proof.
  induction s as [|a s IH]; simpl; [by rewrite decide_True | by rewrite IH].
Qed.

(** X14. Given with the [gs://] scheme or with the HTTPS host in front, a
    location makes the reconciler do the same: same outcome, same files,
    same trace, and the location used is the HTTPS one without trailing
    separators. *)
Theorem both_forms_behave_alike (path s : string) (given : option (list string))
    (logger : option string) (w : World) :
  PyStr.rstrip "/" s ≠ EmptyString →
  PyStr.contains "gs://" s = false →
  https_location ("gs://" +:+ s)
    = "https://storage.googleapis.com/" +:+ PyStr.rstrip "/" s ∧
  maybe_download_with_pget run_tool path (Some ("gs://" +:+ s)) given logger w
  = maybe_download_with_pget run_tool path
      (Some ("https://storage.googleapis.com/" +:+ s)) given logger w.
Proof.
  intros Hne Hgs. destruct (https_location_of_both_forms s Hne Hgs) as [Hgs' Hhttps'].
  split; [done |]. apply same_location_same_call; [done | done | congruence].
Qed.

(** X17. A separator at the end of a non-empty remote location makes no
    difference to the call. *)
Theorem trailing_separator_makes_no_difference (path remote_path : string)
    (given : option (list string)) (logger : option string) (w : World) :
  PyStr.truthy remote_path = true →
  maybe_download_with_pget run_tool path (Some (remote_path +:+ "/")) given logger w
  = maybe_download_with_pget run_tool path (Some remote_path) given logger w.
Proof.
  intros Htruthy. apply same_location_same_call; [by destruct remote_path | done |].
  unfold https_location. by rewrite rstrip_snoc.
Qed.



End SameLocation.

(** ** The further properties on the scenarios *)

Lemma careful_keeps_entries (args : list string) (w : World)
    (fs : gmap (list string) kind) (r : completed) :
  Fixture.careful args w = Some (fs, r) → files w ⊆ fs.
Proof.
  unfold Fixture.careful. repeat case_match; intros [= <- _]; try done.
  by apply insert_subseteq.
Qed.

(** X3 on two calls in a row: the second lists the bucket again. *)
Lemma every_call_lists_again_twice :
  let call :=
    maybe_download_with_pget Scenario.fetching "out" (Some "gs://bucket/models/x/")
      None None in
  let w1 := snd (call (Scenario.world Scenario.fresh)) in
  listings (trace (snd (call w1))) = [("bucket", "models/x"); ("bucket", "models/x")].
Proof.
  intros call w1.
  assert (gcs w1 = Some Scenario.buckets) as Hgcs by (vm_compute; reflexivity).
  pose proof (every_call_lists_again Scenario.fetching "out" "gs://bucket/models/x/" None
                w1 Scenario.buckets eq_refl Hgcs) as Hsecond.
  pose proof (every_call_lists_again Scenario.fetching "out" "gs://bucket/models/x/" None
                (Scenario.world Scenario.fresh) Scenario.buckets eq_refl eq_refl) as Hfirst.
  unfold call. rewrite Hsecond. unfold w1, call. rewrite Hfirst.
  vm_compute; reflexivity.
Defined.


(** X5 with a tool that never overwrites. *)
Lemma reconciler_keeps_entries_careful :
  let w := Scenario.world Scenario.populated in
  let w' :=
    snd (maybe_download_with_pget Fixture.careful "out" (Some "gs://bucket/models/x")
           (Some ["config.json"; "weights/model.bin"; "tokenizer.json"]) None w) in
  files w ⊆ files w' ∧
  files w' !! ["out"; "tokenizer.json"] = Some File.
Proof.
  intros w w'. split; [| vm_compute; reflexivity].
  exact (proj1 (reconciler_keeps_entries Fixture.careful "out" (Some "gs://bucket/models/x")
                  (Some ["config.json"; "weights/model.bin"; "tokenizer.json"]) None w
                  careful_keeps_entries)).
Defined.

(** X6 where [out] is a regular file. *)
Lemma path_must_be_a_directory_flat :
  let w := Scenario.world Fixture.flat in
  files w !! ["out"] = Some File ∧
  maybe_download_with_pget Scenario.fetching "out" (Some "gs://bucket/models/x")
    (Some ["config.json"]) None w
  = (Raise OSError, w).
Proof.
  intros w. split; [vm_compute; reflexivity |].
  assert (os.path_exists w "out" = true) as Hexists by (vm_compute; reflexivity).
  assert (os.path_isdir w "out" = false) as Hdir by (vm_compute; reflexivity).
  exact (path_must_be_a_directory Scenario.fetching "out" "gs://bucket/models/x"
           (Some ["config.json"]) None w w ["config.json"] eq_refl eq_refl Hexists Hdir).
Defined.

(** X7 with [out/weights], a directory, as destination. *)
Lemma download_file_refuses_a_directory_weights :
  let w := Scenario.world Scenario.populated in
  fst (download_file Scenario.fetching "https://storage.googleapis.com/bucket/weights"
         "out/weights" w) = Raise OSError ∧
  spawned (trace (snd (download_file Scenario.fetching
                         "https://storage.googleapis.com/bucket/weights" "out/weights" w)))
  = [].
Proof.
  intros w.
  assert (os.path_isdir w "out/weights" = true) as Hdir by (vm_compute; reflexivity).
  rewrite (download_file_refuses_a_directory Scenario.fetching
             "https://storage.googleapis.com/bucket/weights" "out/weights" w Hdir).
  split; reflexivity.
Defined.

(** X8 with a [pget] that fails: [out/config.json] is gone. *)
Lemma download_file_removes_the_old_file_on_failure :
  let w := Scenario.world Scenario.populated in
  let call :=
    download_file Scenario.failing
      "https://storage.googleapis.com/bucket/models/x/config.json" "out/config.json" w in
  files w !! ["out"; "config.json"] = Some File ∧
  files (snd call) !! ["out"; "config.json"] ≠ Some File ∧
  fst call = Raise (CalledProcessError 1
                      ["pget"; "https://storage.googleapis.com/bucket/models/x/config.json";
                       "out/config.json"]).
Proof.
  intros w call. split; [vm_compute; reflexivity |]. split; [| vm_compute; reflexivity].
  assert (os.resolve w "out/config.json" = Some ["out"; "config.json"]) as Hq
    by (vm_compute; reflexivity).
  assert (files w !! ["out"; "config.json"] = Some File) as Hfile
    by (vm_compute; reflexivity).
  refine (download_file_removes_the_old_file Scenario.failing _ _ w _ Hq Hfile _).
  intros args w0 fs r [= <- _]. exact id.
Defined.

(** X10 with a name expected twice. *)
Lemma check_files_exist_again_repeated :
  let w := Scenario.world Scenario.populated in
  let remote_files := ["model.bin"; "config.json"; "model.bin"] in
  check_files_exist remote_files "out" w = (Ok ["model.bin"; "model.bin"], w) ∧
  ["model.bin"; "model.bin"] `sublist_of` remote_files ∧
  check_files_exist ["model.bin"; "model.bin"] "out" w = (Ok ["model.bin"; "model.bin"], w).
Proof.
  intros w remote_files.
  assert (check_files_exist remote_files "out" w = (Ok ["model.bin"; "model.bin"], w)) as Hrun
    by (vm_compute; reflexivity).
  split; [exact Hrun |].
  exact (check_files_exist_again remote_files "out" w w _ Hrun).
Defined.


(** X12 on the location of the docstring. *)
Lemma both_forms_name_the_same_objects_roberta :
  bucket_and_prefix "gs://my-bucket/username/roberta-base"
    = bucket_and_prefix "my-bucket/username/roberta-base" ∧
  bucket_and_prefix "https://storage.googleapis.com/my-bucket/username/roberta-base"
    = bucket_and_prefix "my-bucket/username/roberta-base".
Proof.
  exact (both_forms_name_the_same_objects "my-bucket/username/roberta-base"
           eq_refl eq_refl).
Defined.

(** X13 on the location of the docstring. *)
Lemma bucket_and_prefix_give_the_location_back_roberta :
  let s := "my-bucket/username/roberta-base" in
  PyStr.contains "/" (bucket_and_prefix s).1 = false ∧
  (s = (bucket_and_prefix s).1 +:+ "/" +:+ (bucket_and_prefix s).2 ∨
   s = (bucket_and_prefix s).1 ∧ (bucket_and_prefix s).2 = EmptyString).
Proof.
  exact (bucket_and_prefix_give_the_location_back "my-bucket/username/roberta-base"
           eq_refl eq_refl).
Defined.

(** X15 on a prefix with one object under it. *)
Lemma listing_under_a_directory_prefix_notes :
  fst (list_remote_filenames "gs://bucket/models/xy" (Scenario.world Scenario.fresh))
  = Ok ["notes.txt"].
Proof.
  refine (listing_under_a_directory_prefix "gs://bucket/models/xy"
            (Scenario.world Scenario.fresh) Scenario.buckets
            ["models/x/config.json"; "models/x/weights.bin"; "models/xy/notes.txt"]
            ["notes.txt"] eq_refl _ _).
  - vm_compute; reflexivity.
  - vm_compute. repeat constructor.
Defined.

(** X14 on the location of the docstring, with a trailing separator. *)
Lemma both_forms_behave_alike_roberta :
  let call remote_path :=
    maybe_download_with_pget Scenario.fetching "out" (Some remote_path)
      (Some ["config.json"]) None (Scenario.world Scenario.fresh) in
  https_location "gs://my-bucket/username/roberta-base/"
    = "https://storage.googleapis.com/my-bucket/username/roberta-base" ∧
  call "gs://my-bucket/username/roberta-base/"
    = call "https://storage.googleapis.com/my-bucket/username/roberta-base/".
Proof.
  intros call.
  assert (PyStr.rstrip "/" "my-bucket/username/roberta-base/" ≠ EmptyString) as Hne
    by (vm_compute; discriminate).
  exact (both_forms_behave_alike Scenario.fetching "out" "my-bucket/username/roberta-base/"
           (Some ["config.json"]) None (Scenario.world Scenario.fresh) Hne eq_refl).
Defined.

(** X17 on the location of the docstring. *)
Lemma trailing_separator_makes_no_difference_roberta :
  maybe_download_with_pget Scenario.fetching "out"
    (Some "gs://my-bucket/username/roberta-base/") (Some ["config.json"]) None
    (Scenario.world Scenario.fresh)
  = maybe_download_with_pget Scenario.fetching "out"
      (Some "gs://my-bucket/username/roberta-base") (Some ["config.json"]) None
      (Scenario.world Scenario.fresh).
Proof.
  exact (trailing_separator_makes_no_difference Scenario.fetching "out"
           "gs://my-bucket/username/roberta-base" (Some ["config.json"]) None
           (Scenario.world Scenario.fresh) eq_refl).
Defined.


(** The decoder on a few byte strings: plain text, a two-byte character,
    and the ill-formed ones, a stray byte, an overlong form, a surrogate and
    a character cut short. *)
Example utf8_samples :
  PyStr.utf8 "connection refused" = true ∧
  PyStr.utf8 (String (ascii_of_nat 195) (String (ascii_of_nat 169) EmptyString)) = true ∧
  PyStr.utf8 (String (ascii_of_nat 255) EmptyString) = false ∧
  PyStr.utf8 (String (ascii_of_nat 192) (String (ascii_of_nat 128) EmptyString)) = false ∧
  PyStr.utf8 (String (ascii_of_nat 237)
                (String (ascii_of_nat 160) (String (ascii_of_nat 128) EmptyString))) = false ∧
  PyStr.utf8 (String (ascii_of_nat 226) (String (ascii_of_nat 130) EmptyString)) = false.
Proof. repeat split; vm_compute; reflexivity. Qed.

(** A fetch task whose process prints bytes that are not UTF-8 ends with
    [UnicodeDecodeError], after the process has run. *)
Example undecodable_output :
  let call :=
    download_file_with_pget Fixture.garbling
      "https://storage.googleapis.com/bucket/models/x/weights.bin" "out/weights.bin"
      (Scenario.world Scenario.fresh) in
  fst call = Raise UnicodeDecodeError ∧ length (spawned (trace (snd call))) = 1.
Proof. intros call. split; vm_compute; reflexivity. Qed.
